(** * LoopMind client core

    A shallow embedding of the backend gateway ([services/api.ts]) and of the
    generation polling loops of the application shell ([App.tsx]):
    the payload normalizer ([mapALUToCard], [mapBackendTopic]), the status
    classifier ([isReadyStatus], [isStuckGenerating]), the five gateway
    operations with their timeout and fallback policy, and the poll ticks
    that publish into the application state. *)

From Stdlib Require Import List ZArith NArith Bool String Ascii Lia DecimalString.
From Stdlib Require DecimalNat DecimalPos DecimalZ FinFun.
Import ListNotations.

Set Implicit Arguments.

(* ------------------------------------------------------------------ *)
(** ** JavaScript strings

    A string is its sequence of UTF-16 code units.  Only the operations the
    gateway uses are embedded. *)

Module JsString.

Definition t := list N.

(** A literal of the source, written with Rocq's byte strings. *)
Fixpoint lit (s : string) : t :=
  match s with
  | EmptyString => []
  | String a rest => N_of_ascii a :: lit rest
  end.

Definition isUpperAscii (c : N) : bool := (65 <=? c)%N && (c <=? 90)%N.

(** [toLowerCase] on one code unit.  The letters A-Z move to a-z.  The
    Unicode case table above U+007F is not embedded: those code units are
    left as they are.  For the status classifier this loses nothing: the
    only code point above U+007F whose lower case is an ASCII letter is
    U+212A KELVIN SIGN (k), and no status synonym contains a k. *)
Definition lowerUnit (c : N) : N :=
  if isUpperAscii c then (c + 32)%N else c.

Definition toLowerCase (s : t) : t := map lowerUnit s.

(** ECMAScript WhiteSpace and LineTerminator code points, the ones
    [String.prototype.trim] strips. *)
Definition isWhiteSpace (c : N) : bool :=
  existsb (N.eqb c)
    [0x9; 0xA; 0xB; 0xC; 0xD; 0x20; 0xA0; 0x1680; 0x2028; 0x2029;
     0x202F; 0x205F; 0x3000; 0xFEFF]%N
  || ((0x2000 <=? c)%N && (c <=? 0x200A)%N).

Fixpoint trimStart (s : t) : t :=
  match s with
  | [] => []
  | c :: rest => if isWhiteSpace c then trimStart rest else s
  end.

Definition trimEnd (s : t) : t := rev (trimStart (rev s)).

Definition trim (s : t) : t := trimEnd (trimStart s).

(** Strict equality [===] of two strings. *)
Fixpoint eqb (a b : t) : bool :=
  match a, b with
  | [], [] => true
  | x :: a', y :: b' => N.eqb x y && eqb a' b'
  | _, _ => false
  end.

(** [Array.prototype.includes] on an array of strings. *)
Definition includes (l : list t) (s : t) : bool := existsb (eqb s) l.

(** [Array.prototype.join] on an array of strings. *)
Fixpoint join (sep : t) (parts : list t) : t :=
  match parts with
  | [] => []
  | [p] => p
  | p :: rest => p ++ sep ++ join sep rest
  end.

(** [String(i)] for an array index. *)
Definition ofIndex (i : nat) : t :=
  lit (NilEmpty.string_of_uint (Nat.to_uint i)).

(** [String(n)] for an integral number (below 1e21 in magnitude, where
    JavaScript prints plain decimal digits). *)
Definition ofNumber (n : Z) : t :=
  lit (NilZero.string_of_int (Z.to_int n)).

(** The empty string. *)
Definition empty : t := [].

(** A string is falsy exactly when it is empty. *)
Definition truthy (s : t) : bool :=
  match s with [] => false | _ :: _ => true end.

End JsString.

Abbreviation jsstring := JsString.t.
Notation "'js' s" := (JsString.lit s%string) (at level 9, s at level 0, only parsing).

(** The nullish coalescing operator [a ?? b]. *)
Definition nullish {A : Type} (a : option A) (b : A) : A :=
  match a with Some x => x | None => b end.
Infix "??" := nullish (at level 45, left associativity).

(** [a ?? b] where [b] may itself be absent. *)
Definition nullish_opt {A : Type} (a b : option A) : option A :=
  match a with Some x => Some x | None => b end.
Infix "?|" := nullish_opt (at level 46, right associativity).

(* ------------------------------------------------------------------ *)
(** ** Domain types ([types/index.ts]) *)

Inductive TopicStatus := ready | generating.
Inductive Depth := beginner | intermediate | advanced.

Record ImageCardData := mkImageCard {
  ic_id : jsstring;
  imageUrl : jsstring;
  caption : jsstring;
  hook : option jsstring;
  ic_credit : option jsstring
}.

Record QuizOption := mkQuizOption {
  opt_id : jsstring;
  opt_text : jsstring
}.

Record QuizCardData := mkQuizCard {
  qc_id : jsstring;
  question : jsstring;
  options : list QuizOption;
  correctOptionId : jsstring;
  explanation : jsstring
}.

Record FlashCardData := mkFlashCard {
  fc_id : jsstring;
  front : jsstring;
  back : jsstring;
  fc_hint : option jsstring
}.

(** The union [Card], discriminated by [card_type]. *)
Inductive Card :=
| ImageCard (c : ImageCardData)
| QuizCard (c : QuizCardData)
| FlashCard (c : FlashCardData).

Record Topic := mkTopic {
  id : jsstring;
  title : jsstring;
  emoji : jsstring;
  color : jsstring;
  status : TopicStatus;
  depth : Depth;
  cardCount : Z;
  cards : list Card;
  stuck : option bool
}.

(** *** Backend response shapes

    Optional fields are [option]s: [None] stands for [undefined] and [null],
    which [??] does not tell apart. *)

Record BackendTopicItem := mkBackendTopicItem {
  node_id : jsstring;
  bt_title : option jsstring;
  icon : option jsstring;
  bt_status : option jsstring;
  card_count : option Z;
  created_at : option jsstring
}.

(** The nested [quiz] object of a quiz record. *)
Record BackendQuiz := mkBackendQuiz {
  bq_question : option jsstring;
  choices : option (list jsstring);
  answer_index : option Z;
  bq_explanation : option jsstring
}.

(** [alu.micro_explanation] is untyped: the mapper tests it with
    [Array.isArray]. *)
Inductive MicroExplanation :=
| MicroArray (fragments : list jsstring)
| MicroOther.

(** [alu.flashcard] is untyped: the mapper tests its truthiness and
    [typeof ... === 'object'].  An object is given by its own enumerable
    string-keyed properties in the order [Object.entries] lists them. *)
Inductive FlashcardField :=
| FlashObject (entries : list (jsstring * jsstring))
| FlashPrimitive.

Record BackendALU := mkBackendALU {
  alu_id : jsstring;
  post_type : option jsstring;
  card_type : option jsstring;
  image_url : option jsstring;
  alu_caption : option jsstring;
  micro_explanation : option MicroExplanation;
  alu_hook : option jsstring;
  alu_credit : option jsstring;
  quiz : option BackendQuiz;
  alu_question : option jsstring;
  alu_explanation : option jsstring;
  alu_front : option jsstring;
  alu_back : option jsstring;
  flashcard : option FlashcardField;
  alu_hint : option jsstring
}.

(* ------------------------------------------------------------------ *)
(** ** Host environment and console *)

(** The clock and the date parser of the host.  [Date_parse s] is
    [new Date(s).getTime()], with [None] for [NaN] (an invalid date). *)
Record Host := mkHost {
  Date_now : Z;
  Date_parse : jsstring -> option Z
}.

(** What the gateway writes to the console, as events. *)
Inductive ConsoleEvent :=
| WarnUnknownCardType (postType : option jsstring)
| LogTopic (item : BackendTopicItem) (is_stuck : bool)
| LogGetTopicsRaw
| LogGetTopicsParsed (n : nat)
| WarnGetTopicsFailed
| WarnGetCardsFailed
| WarnMarkLearntFailed
| WarnDeleteTopicFailed
| LogGenerateResponse
| LogGenerateTimedOut.

Definition Console := list ConsoleEvent.

(* ------------------------------------------------------------------ *)
(** ** Palette *)

Definition TOPIC_COLORS : list jsstring :=
  [js "#6C63FF"; js "#FF6B6B"; js "#F7B731"; js "#26de81";
   js "#FC5C7D"; js "#45B7D1"; js "#F78FB3"; js "#7158E2"].

Definition TOPIC_EMOJIS : list jsstring :=
  [[0xD83E; 0xDDE0]; [0xD83D; 0xDCD8]; [0xD83D; 0xDD2C]; [0x26A1];
   [0xD83C; 0xDF93]; [0xD83D; 0xDCA1]; [0xD83C; 0xDF1F]; [0xD83D; 0xDE80]]%N.

Definition pickColor (index : nat) : jsstring :=
  nth (index mod List.length TOPIC_COLORS) TOPIC_COLORS [].

Definition pickEmoji (index : nat) : jsstring :=
  nth (index mod List.length TOPIC_EMOJIS) TOPIC_EMOJIS [].

(* ------------------------------------------------------------------ *)
(** ** Mappers *)

(** [array.map((x, i) => f x i)]. *)
Fixpoint mapi_from {A B : Type} (i : nat) (f : A -> nat -> B) (l : list A) : list B :=
  match l with
  | [] => []
  | x :: rest => f x i :: mapi_from (S i) f rest
  end.

Definition mapi {A B : Type} (f : A -> nat -> B) (l : list A) : list B :=
  mapi_from 0 f l.

Definition emptyQuiz : BackendQuiz := mkBackendQuiz None None None None.

(** The discriminator the [switch] of [mapALUToCard] inspects. *)
Definition postType (alu : BackendALU) : option jsstring :=
  post_type alu ?| card_type alu.

Definition is_case (tag : string) (v : option jsstring) : bool :=
  match v with
  | Some s => JsString.eqb s (js tag)
  | None => false
  end.

(** Map a backend ALU item to the frontend Card union; the second component
    is what the call writes to the console. *)
Definition mapALUToCard (alu : BackendALU) : option Card * Console :=
  let baseId := alu_id alu in
  let postType := postType alu in
  if is_case "image" postType then
    let caption :=
      alu_caption alu ??
        (match micro_explanation alu with
         | Some (MicroArray fragments) => JsString.join (js " ") fragments
         | _ => JsString.empty
         end) in
    (Some (ImageCard {|
       ic_id := baseId;
       imageUrl := image_url alu ?? JsString.empty;
       caption := caption;
       hook := Some (alu_hook alu ?? JsString.empty);
       ic_credit := alu_credit alu |}), [])
  else if is_case "quiz" postType then
    let quiz := quiz alu ?? emptyQuiz in
    let choices := choices quiz ?? [] in
    let options :=
      mapi (fun text i => {| opt_id := JsString.ofIndex i; opt_text := text |}) choices in
    (Some (QuizCard {|
       qc_id := baseId;
       question := (bq_question quiz ?| alu_question alu) ?? JsString.empty;
       options := options;
       correctOptionId := JsString.ofNumber (answer_index quiz ?? 0%Z);
       explanation := (bq_explanation quiz ?| alu_explanation alu) ?? JsString.empty |}), [])
  else if is_case "flashcard" postType then
    let front0 := alu_front alu ?? JsString.empty in
    let back0 := alu_back alu ?? JsString.empty in
    let '(front, back) :=
      match flashcard alu with
      | Some (FlashObject entries) =>
          match entries with
          | (k, v) :: _ => (k, v)
          | [] => (front0, back0)
          end
      | _ => (front0, back0)
      end in
    (Some (FlashCard {|
       fc_id := baseId;
       front := front;
       back := back;
       fc_hint := alu_hint alu |}), [])
  else
    (None, [WarnUnknownCardType postType]).

(** *** Status classifier *)

Definition READY_STATUSES : list jsstring :=
  [js "ready"; js "completed"; js "done"; js "complete"; js "finished";
   js "images_pending"].

(** Check if a backend status string means "ready". *)
Definition isReadyStatus (status : option jsstring) : bool :=
  match status with
  | None => false
  | Some status =>
      if negb (JsString.truthy status) then false
      else
        let s := JsString.trim (JsString.toLowerCase status) in
        JsString.includes READY_STATUSES s
  end.

Definition STUCK_AFTER_MS : Z := 10 * 60 * 1000.

(** Check if a generating topic is stuck.  A [created_at] that does not
    parse gives [NaN], and [NaN > x] is false. *)
Definition isStuckGenerating (h : Host) (item : BackendTopicItem) : bool :=
  if isReadyStatus (bt_status item) then false
  else if (card_count item ?? 0 >? 0)%Z then false
  else
    match created_at item with
    | None => false
    | Some created =>
        if negb (JsString.truthy created) then false
        else
          match Date_parse h created with
          | None => false
          | Some createdMs =>
              let ageMs := (Date_now h - createdMs)%Z in
              (ageMs >? STUCK_AFTER_MS)%Z
          end
    end.

(** Map a backend topic item to the frontend Topic type. *)
Definition mapBackendTopic (h : Host) (item : BackendTopicItem) (index : nat)
  : Topic * Console :=
  let stuck := isStuckGenerating h item in
  ({| id := node_id item;
      title := bt_title item ?? js "Untitled";
      emoji := icon item ?? pickEmoji index;
      color := pickColor index;
      status := if isReadyStatus (bt_status item) then ready else generating;
      depth := intermediate;
      cardCount := card_count item ?? 0%Z;
      cards := [];
      stuck := Some stuck |},
   [LogTopic item stuck]).

(** The mapping step of [getTopics]: [items.map(mapBackendTopic)]. *)
Definition mapTopics (h : Host) (items : list BackendTopicItem) : list Topic * Console :=
  let rs := mapi (mapBackendTopic h) items in
  (map fst rs, List.concat (map snd rs)).

(** [array.filter((c): c is Card => c !== null)]. *)
Fixpoint filterNotNull {A : Type} (l : list (option A)) : list A :=
  match l with
  | [] => []
  | Some c :: rest => c :: filterNotNull rest
  | None :: rest => filterNotNull rest
  end.

(** The mapping step of [getCards]:
    [alus.map(mapALUToCard).filter(c => c !== null)]. *)
Definition mapCards (alus : list BackendALU) : list Card * Console :=
  let rs := map mapALUToCard alus in
  (filterNotNull (map fst rs), List.concat (map snd rs)).

(* ------------------------------------------------------------------ *)
(** ** Promises and async functions

    Time is counted in milliseconds from the call.  A promise either settles
    at some time, resolved or rejected, or stays pending for ever. *)

Inductive JsError :=
| RequestTimedOut
| NetworkError
| AbortError
| SyntaxError
| TypeError.

Inductive Settled (A : Type) :=
| Resolved (a : A)
| Rejected (e : JsError).
Arguments Rejected {A} e.

Definition Promise (A : Type) : Type := option (Z * Settled A).

(** The run of an async function: what it wrote to the console and how its
    promise settles. *)
Definition Async (A : Type) : Type := Console * Promise A.

Definition settles {A : Type} (m : Async A) : Promise A := snd m.
Definition console {A : Type} (m : Async A) : Console := fst m.

Definition delay {A : Type} (t : Z) (p : Promise A) : Promise A :=
  match p with
  | Some (t', r) => Some ((t + t')%Z, r)
  | None => None
  end.

Definition ret {A : Type} (a : A) : Async A := ([], Some (0%Z, Resolved a)).

Definition throw {A : Type} (e : JsError) : Async A := ([], Some (0%Z, Rejected e)).

Definition log (ev : ConsoleEvent) : Async unit := ([ev], Some (0%Z, Resolved tt)).

(** [await p]. *)
Definition await {A : Type} (p : Promise A) : Async A := ([], p).

(** A synchronous step that writes to the console. *)
Definition logged {A : Type} (r : A * Console) : Async A :=
  (snd r, Some (0%Z, Resolved (fst r))).

Definition bind {A B : Type} (m : Async A) (k : A -> Async B) : Async B :=
  match m with
  | (c, Some (t, Resolved a)) => (c ++ console (k a), delay t (settles (k a)))
  | (c, Some (t, Rejected e)) => (c, Some (t, Rejected e))
  | (c, None) => (c, None)
  end.

(** [try { m } catch (err) { handler err }]. *)
Definition try_catch {A : Type} (m : Async A) (handler : JsError -> Async A) : Async A :=
  match m with
  | (c, Some (t, Rejected e)) => (c ++ console (handler e), delay t (settles (handler e)))
  | _ => m
  end.

Notation "x <- m ;; k" := (bind m (fun x => k))
  (at level 61, m at next level, right associativity).
Notation "m ;;; k" := (bind m (fun _ => k))
  (at level 61, right associativity).

(** [Promise.race([p, q])]: the one that settles first; [p] on a tie. *)
Definition race {A : Type} (p q : Promise A) : Promise A :=
  match p, q with
  | Some (tp, _), Some (tq, _) => if (tp <=? tq)%Z then p else q
  | Some _, None => p
  | None, _ => q
  end.

(** [new Promise((_, reject) => setTimeout(() => reject(e), ms))]. *)
Definition rejectAfter {A : Type} (ms : Z) (e : JsError) : Promise A :=
  Some (ms, Rejected e).

(* ------------------------------------------------------------------ *)
(** ** The network *)

Inductive HttpMethod := GET | POST.

Record Request := mkRequest {
  url : jsstring;
  method : HttpMethod;
  body : list (jsstring * jsstring)
}.

(** A response whose [json()] promise carries a body of type [B]. *)
Record Response (B : Type) := mkResponse {
  json : Promise B
}.

(** How the network answers each request: [fetch(url, options)]. *)
Definition Network (B : Type) : Type := Request -> Promise (Response B).

Definition fetch {B : Type} (net : Network B) (req : Request) : Promise (Response B) :=
  net req.

Definition fetchWithTimeout {B : Type} (net : Network B) (req : Request) (timeoutMs : Z)
  : Promise (Response B) :=
  race (fetch net req) (rejectAfter timeoutMs RequestTimedOut).

Definition DEFAULT_TIMEOUT_MS : Z := 15000.

(** The parsed body of a [/feed] response.  An object is given by its
    array-valued properties; [null] is the body on which reading a property
    throws. *)
Inductive FeedData (A : Type) :=
| DataArray (items : list A)
| DataObject (props : list (jsstring * list A))
| DataNull.
Arguments DataNull {A}.

Fixpoint getProp {A : Type} (props : list (jsstring * A)) (name : jsstring) : option A :=
  match props with
  | [] => None
  | (k, v) :: rest => if JsString.eqb k name then Some v else getProp rest name
  end.

(** [data.a ?? data.b ?? ... ?? []]. *)
Fixpoint firstProp {A : Type} (props : list (jsstring * list A)) (names : list jsstring)
  : list A :=
  match names with
  | [] => []
  | n :: rest =>
      match getProp props n with
      | Some v => v
      | None => firstProp props rest
      end
  end.

(** [Array.isArray(data) ? data : data.a ?? data.b ?? ... ?? []]. *)
Definition feedItems {A : Type} (names : list jsstring) (data : FeedData A)
  : Async (list A) :=
  match data with
  | DataArray items => ret items
  | DataObject props => ret (firstProp props names)
  | DataNull => throw TypeError
  end.

(** The value a write operation resolves to. *)
#[warnings="-register-all"]
Inductive Json :=
| JNull
| JBool (b : bool)
| JNumber (n : Z)
| JString (s : jsstring)
| JArray (l : list Json)
| JObject (props : list (jsstring * Json)).

Definition emptyObject : Json := JObject [].

(* ------------------------------------------------------------------ *)
(** ** The gateway [api] *)

Definition API_URL : jsstring := js "https://lepwbriexl.execute-api.us-east-2.amazonaws.com".
Definition GENERATE_URL : jsstring :=
  js "https://g4jtcoqlwnraha33r4ztsyxole0govag.lambda-url.us-east-2.on.aws".
Definition USER_ID : jsstring := js "u1".

Definition getTopics_request : Request :=
  {| url := API_URL ++ js "/feed?user_id=" ++ USER_ID; method := GET; body := [] |}.

(** List all topics for the current user. *)
Definition getTopics (h : Host) (net : Network (FeedData BackendTopicItem))
  : Async (list Topic) :=
  try_catch
    (res <- await (fetchWithTimeout net getTopics_request DEFAULT_TIMEOUT_MS) ;;
     data <- await (json res) ;;
     log LogGetTopicsRaw ;;;
     items <- feedItems [js "topics"; js "nodes"; js "items"; js "feed"] data ;;
     log (LogGetTopicsParsed (List.length items)) ;;;
     logged (mapTopics h items))
    (fun err => log WarnGetTopicsFailed ;;; ret []).

Definition getCards_request (nodeId : jsstring) : Request :=
  {| url := API_URL ++ js "/feed?user_id=" ++ USER_ID ++ js "&node_id=" ++ nodeId;
     method := GET; body := [] |}.

(** Get cards for a specific topic. *)
Definition getCards (net : Network (FeedData BackendALU)) (nodeId : jsstring)
  : Async (list Card) :=
  try_catch
    (res <- await (fetchWithTimeout net (getCards_request nodeId) DEFAULT_TIMEOUT_MS) ;;
     data <- await (json res) ;;
     alus <- feedItems [js "cards"; js "alus"; js "items"] data ;;
     logged (mapCards alus))
    (fun err => log WarnGetCardsFailed ;;; ret []).

Record GenerateResult := mkGenerateResult {
  gr_node_id : jsstring
}.

Definition generateTopic_request (id title rawText : jsstring) : Request :=
  {| url := GENERATE_URL;
     method := POST;
     body := [(js "user_id", USER_ID);
              (js "node_id", id);
              (js "title", title);
              (js "raw_text",
               if JsString.truthy rawText then rawText
               else js "Tell me about " ++ title)] |}.

(** The id a submission gets: [nodeId ?? `node-${Date.now()}`]. *)
Definition submissionId (h : Host) (nodeId : option jsstring) : jsstring :=
  nodeId ?? (js "node-" ++ JsString.ofNumber (Date_now h)).

(** The request [generateTopic] sends and never awaits:
    [fetch(...).then(res => res.json()).then(log).catch(log)]. *)
Definition generateTopic_detached {B : Type} (net : Network B) (req : Request)
  : Async unit :=
  try_catch
    (res <- await (fetch net req) ;;
     data <- await (json res) ;;
     log LogGenerateResponse)
    (fun _ => log LogGenerateTimedOut).

(** Kick off content generation for a new topic.  The first component is
    the promise the caller gets, the second the detached exchange. *)
Definition generateTopic {B : Type} (h : Host) (net : Network B)
    (title : jsstring) (rawText : option jsstring) (nodeId : option jsstring)
  : Async GenerateResult * Async unit :=
  let rawText := rawText ?? JsString.empty in
  let id := submissionId h nodeId in
  let detached := generateTopic_detached net (generateTopic_request id title rawText) in
  (ret {| gr_node_id := id |}, detached).

Definition markLearnt_request (aluId nodeId : jsstring) : Request :=
  {| url := API_URL ++ js "/learn";
     method := POST;
     body := [(js "user_id", USER_ID); (js "alu_id", aluId); (js "node_id", nodeId)] |}.

(** Mark a card as learnt. *)
Definition markLearnt (net : Network Json) (aluId nodeId : jsstring) : Async Json :=
  try_catch
    (res <- await (fetchWithTimeout net (markLearnt_request aluId nodeId) DEFAULT_TIMEOUT_MS) ;;
     await (json res))
    (fun err => log WarnMarkLearntFailed ;;; ret emptyObject).

(** [topics.find((t) => t.id === nodeId)]. *)
Definition findTopic (nodeId : jsstring) (l : list Topic) : option Topic :=
  find (fun t => JsString.eqb (id t) nodeId) l.

(** [found?.status ?? 'generating']. *)
Definition statusOf (nodeId : jsstring) (l : list Topic) : TopicStatus :=
  match findTopic nodeId l with
  | Some found => status found
  | None => generating
  end.

(** Returns the status of the specified topic in a fresh topic list. *)
Definition pollTopicStatus (h : Host) (net : Network (FeedData BackendTopicItem))
    (nodeId : jsstring) : Async TopicStatus :=
  try_catch
    (l <- getTopics h net ;;
     ret (statusOf nodeId l))
    (fun _ => ret generating).

Definition deleteTopic_request (nodeId : jsstring) : Request :=
  {| url := API_URL ++ js "/delete";
     method := POST;
     body := [(js "user_id", USER_ID); (js "node_id", nodeId)] |}.

(** Delete a topic and all its cards. *)
Definition deleteTopic (net : Network Json) (nodeId : jsstring) : Async Json :=
  try_catch
    (res <- await (fetchWithTimeout net (deleteTopic_request nodeId) DEFAULT_TIMEOUT_MS) ;;
     await (json res))
    (fun err => log WarnDeleteTopicFailed ;;; ret emptyObject).

(* ------------------------------------------------------------------ *)
(** ** The earlier gateway ([src/services/api.ts])

    The copy of the gateway kept under [src/services] differs in four
    places: no [images_pending] synonym, no stuck detection, plain [fetch]
    without a timer for the four awaited calls, and a [generateTopic] that
    awaits its request under a five second abort. *)

Module ApiTs.

Definition READY_STATUSES : list jsstring :=
  [js "ready"; js "completed"; js "done"; js "complete"; js "finished"].

Definition isReadyStatus (status : option jsstring) : bool :=
  match status with
  | None => false
  | Some status =>
      if negb (JsString.truthy status) then false
      else
        let s := JsString.trim (JsString.toLowerCase status) in
        JsString.includes READY_STATUSES s
  end.

(** [fetch(url, { signal })] with [setTimeout(() => controller.abort(), ms)]. *)
Definition fetchWithAbort {B : Type} (net : Network B) (req : Request) (ms : Z)
  : Promise (Response B) :=
  race (fetch net req) (rejectAfter ms AbortError).

Definition generateTopic_request (id title rawText : jsstring) : Request :=
  {| url := API_URL ++ js "/generate";
     method := POST;
     body := [(js "user_id", USER_ID);
              (js "node_id", id);
              (js "title", title);
              (js "raw_text",
               if JsString.truthy rawText then rawText
               else js "Tell me about " ++ title)] |}.

Definition generateTopic {B : Type} (h : Host) (net : Network B)
    (title : jsstring) (rawText : option jsstring) (nodeId : option jsstring)
  : Async GenerateResult :=
  let rawText := rawText ?? JsString.empty in
  let id := submissionId h nodeId in
  try_catch
    (res <- await (fetchWithAbort net (generateTopic_request id title rawText) 5000) ;;
     data <- await (json res) ;;
     log LogGenerateResponse)
    (fun _ => log LogGenerateTimedOut) ;;;
  ret {| gr_node_id := id |}.

(** Map a backend topic item to the frontend Topic type: no [stuck] field,
    and the console line of the current gateway for a topic that is not
    stuck. *)
Definition mapBackendTopic (item : BackendTopicItem) (index : nat) : Topic * Console :=
  ({| id := node_id item;
      title := bt_title item ?? js "Untitled";
      emoji := icon item ?? pickEmoji index;
      color := pickColor index;
      status := if isReadyStatus (bt_status item) then ready else generating;
      depth := intermediate;
      cardCount := card_count item ?? 0%Z;
      cards := [];
      stuck := None |},
   [LogTopic item false]).

Definition mapTopics (items : list BackendTopicItem) : list Topic * Console :=
  let rs := mapi mapBackendTopic items in
  (map fst rs, List.concat (map snd rs)).

(** List all topics for the current user, with a plain [fetch]. *)
Definition getTopics (net : Network (FeedData BackendTopicItem)) : Async (list Topic) :=
  try_catch
    (res <- await (fetch net getTopics_request) ;;
     data <- await (json res) ;;
     log LogGetTopicsRaw ;;;
     items <- feedItems [js "topics"; js "nodes"; js "items"; js "feed"] data ;;
     log (LogGetTopicsParsed (List.length items)) ;;;
     logged (mapTopics items))
    (fun err => log WarnGetTopicsFailed ;;; ret []).

Definition pollTopicStatus (net : Network (FeedData BackendTopicItem))
    (nodeId : jsstring) : Async TopicStatus :=
  try_catch
    (l <- getTopics net ;;
     ret (statusOf nodeId l))
    (fun _ => ret generating).

End ApiTs.

(* ------------------------------------------------------------------ *)
(** ** The application shell ([App.tsx])

    The three pieces of React state the polling loops publish into. *)

Record AppState := mkAppState {
  topics : list Topic;
  activeTopic : option Topic;
  generatingTopicId : option jsstring
}.

Definition setTopics (l : list Topic) (st : AppState) : AppState :=
  {| topics := l; activeTopic := activeTopic st;
     generatingTopicId := generatingTopicId st |}.

(** [setTopics((prev) => f prev)]. *)
Definition updateTopics (f : list Topic -> list Topic) (st : AppState) : AppState :=
  setTopics (f (topics st)) st.

Definition setActiveTopic (t : option Topic) (st : AppState) : AppState :=
  {| topics := topics st; activeTopic := t;
     generatingTopicId := generatingTopicId st |}.

Definition setGeneratingTopicId (g : option jsstring) (st : AppState) : AppState :=
  {| topics := topics st; activeTopic := activeTopic st;
     generatingTopicId := g |}.

Definition BRAIN : jsstring := [0xD83E; 0xDDE0]%N.

(** [`node-${Date.now()}`]. *)
Definition freshNodeId (h : Host) : jsstring :=
  js "node-" ++ JsString.ofNumber (Date_now h).

Definition placeholderTopic (nodeId title color : jsstring) (depth : Depth) : Topic :=
  {| id := nodeId;
     title := title;
     emoji := BRAIN;
     color := color;
     status := generating;
     depth := depth;
     cardCount := 0%Z;
     cards := [];
     stuck := None |}.

(** The three state updates that follow a submission. *)
Definition publishPlaceholder (p : Topic) (st : AppState) : AppState :=
  setGeneratingTopicId (Some (id p))
    (setActiveTopic (Some p)
       (updateTopics (fun prev => p :: prev) st)).

(** The synchronous part of [handleGenerate]: the state it publishes and
    the id whose polling loop it starts.  The call of [api.generateTopic]
    is not awaited and does not touch the state. *)
Definition handleGenerate (h : Host) (title : jsstring) (_depth : Depth) (st : AppState)
  : AppState * jsstring :=
  let nodeId := freshNodeId h in
  let placeholder := placeholderTopic nodeId title (js "#6C63FF") _depth in
  (publishPlaceholder placeholder st, nodeId).

(** [handleRetryTopic] once [api.deleteTopic] has settled; [h] is the host
    at that moment. *)
Definition handleRetryTopic (h : Host) (topic : Topic) (st : AppState)
  : AppState * jsstring :=
  let st1 := updateTopics (filter (fun t => negb (JsString.eqb (id t) (id topic)))) st in
  let nodeId := freshNodeId h in
  let placeholder := placeholderTopic nodeId (title topic) (color topic) (depth topic) in
  (publishPlaceholder placeholder st1, nodeId).

(** [handleDeleteTopic] once [api.deleteTopic] has settled.  [closureActive]
    is the [activeTopic] the callback closed over. *)
Definition handleDeleteTopic (closureActive : option Topic) (topicId : jsstring)
    (st : AppState) : AppState :=
  let updated := filter (fun t => negb (JsString.eqb (id t) topicId)) (topics st) in
  let st1 :=
    match closureActive with
    | Some a =>
        if JsString.eqb (id a) topicId then setActiveTopic (hd_error updated) st
        else st
    | None => st
    end in
  setTopics updated st1.

Definition MAX_POLL_MS : Z := 5 * 60 * 1000.

(** What a tick does with a refreshed topic list:
    [setTopics(refreshed); if (found) setActiveTopic(found);
     setGeneratingTopicId(null)]. *)
Definition publishRefreshed (nodeId : jsstring) (refreshed : list Topic) (st : AppState)
  : AppState :=
  let st1 := setTopics refreshed st in
  let st2 :=
    match findTopic nodeId refreshed with
    | Some found => setActiveTopic (Some found) st1
    | None => st1
    end in
  setGeneratingTopicId None st2.

Inductive Tick :=
| Finished
| Again (interval : Z).

(** One tick of the [poll] closure of the loop started for [nodeId], the
    same closure in [handleGenerate] and in [handleRetryTopic].
    [elapsed] is [Date.now() - startTime]; [polled] is the list
    [api.pollTopicStatus] fetched, [refreshed] the list the tick's own
    [api.getTopics()] returned; [st] is the state the setters act on.  The
    setters are called one after the other behind the last [await], so the
    tick acts on the state in one step.  The attempt counter and the
    console lines of the closure are left out. *)
Definition poll (nodeId : jsstring) (elapsed : Z) (polled refreshed : list Topic)
    (st : AppState) : AppState * Tick :=
  if (elapsed >? MAX_POLL_MS)%Z then
    (publishRefreshed nodeId refreshed st, Finished)
  else
    match statusOf nodeId polled with
    | ready => (publishRefreshed nodeId refreshed st, Finished)
    | generating =>
        let interval := if (elapsed <? 120000)%Z then 4000%Z else 8000%Z in
        (st, Again interval)
    end.

(* ------------------------------------------------------------------ *)
(** ** Vocabulary of the statements *)

(** The lowercased, trimmed form the classifier compares. *)
Definition normalized (s : jsstring) : jsstring :=
  JsString.trim (JsString.toLowerCase s).

(** A promise that settles no later than [ms]. *)
Definition settlesWithin {A : Type} (ms : Z) (p : Promise A) : Prop :=
  exists t r, p = Some (t, r) /\ (t <= ms)%Z.

(** A promise that is not rejected, now or later. *)
Definition neverRejects {A : Type} (p : Promise A) : Prop :=
  forall t e, p <> Some (t, Rejected e).

(** The request got no answer within [ms]: none at all, or a later one. *)
Definition unanswered {B : Type} (net : Network B) (req : Request) (ms : Z) : Prop :=
  net req = None \/ exists t r, net req = Some (t, r) /\ (ms < t)%Z.

(** A string made of white space only. *)
Definition allWhiteSpace (s : jsstring) : Prop :=
  Forall (fun c => JsString.isWhiteSpace c = true) s.

(* ------------------------------------------------------------------ *)
(** ** Sample data *)

Definition EPOCH : jsstring := js "1970-01-01T00:00:00.000Z".

(** A host whose clock reads [now] and whose date parser knows the epoch
    only. *)
Definition epochHost (now : Z) : Host :=
  {| Date_now := now;
     Date_parse := fun s => if JsString.eqb s EPOCH then Some 0%Z else None |}.

Definition sampleItem (st : option jsstring) (count : option Z)
    (created : option jsstring) : BackendTopicItem :=
  {| node_id := js "node-1000";
     bt_title := Some (js "Creatine");
     icon := None;
     bt_status := st;
     card_count := count;
     created_at := created |}.

(** A non-ready topic created 15 minutes before the clock of
    [epochHost 900000], with the given card count. *)
Definition agedItem (count : option Z) : BackendTopicItem :=
  sampleItem (Some (js "generating")) count (Some EPOCH).

(** A card record that carries nothing but its id and discriminators. *)
Definition bareALU (post card : option jsstring) : BackendALU :=
  {| alu_id := js "alu-1";
     post_type := post;
     card_type := card;
     image_url := None;
     alu_caption := None;
     micro_explanation := None;
     alu_hook := None;
     alu_credit := None;
     quiz := None;
     alu_question := None;
     alu_explanation := None;
     alu_front := None;
     alu_back := None;
     flashcard := None;
     alu_hint := None |}.

(** [{post_type: "quiz", quiz: {question: "Q?", choices: ["A","B","C"],
      answer_index: 1, explanation: "E"}}]. *)
Definition quizALU : BackendALU :=
  {| alu_id := js "alu-1";
     post_type := Some (js "quiz");
     card_type := None;
     image_url := None;
     alu_caption := None;
     micro_explanation := None;
     alu_hook := None;
     alu_credit := None;
     quiz := Some {| bq_question := Some (js "Q?");
                     choices := Some [js "A"; js "B"; js "C"];
                     answer_index := Some 1%Z;
                     bq_explanation := Some (js "E") |};
     alu_question := None;
     alu_explanation := None;
     alu_front := None;
     alu_back := None;
     flashcard := None;
     alu_hint := None |}.

(** [{post_type: "flashcard", flashcard: {"What is X?": "X is Y"}}], with
    further entries [more] behind the first. *)
Definition flashALU (more : list (jsstring * jsstring)) : BackendALU :=
  {| alu_id := js "alu-2";
     post_type := Some (js "flashcard");
     card_type := None;
     image_url := None;
     alu_caption := None;
     micro_explanation := None;
     alu_hook := None;
     alu_credit := None;
     quiz := None;
     alu_question := None;
     alu_explanation := None;
     alu_front := Some (js "unused front");
     alu_back := None;
     flashcard := Some (FlashObject ((js "What is X?", js "X is Y") :: more));
     alu_hint := None |}.

(** An image record discriminated by [card_type] alone, with explanation
    fragments and a caption that may be absent. *)
Definition imageALU (cap : option jsstring) : BackendALU :=
  {| alu_id := js "alu-3";
     post_type := None;
     card_type := Some (js "image");
     image_url := Some (js "https://img/1.png");
     alu_caption := cap;
     micro_explanation := Some (MicroArray [js "Muscles"; js "store"; js "creatine."]);
     alu_hook := None;
     alu_credit := None;
     quiz := None;
     alu_question := None;
     alu_explanation := None;
     alu_front := None;
     alu_back := None;
     flashcard := None;
     alu_hint := None |}.

(** A record of a type the client does not know. *)
Definition videoALU : BackendALU := bareALU (Some (js "video")) (Some (js "image")).

(** A network that answers every request after [t] ms with a response whose
    body parses, [t'] ms later, to [data]. *)
Definition answering {B : Type} (t t' : Z) (data : B) : Network B :=
  fun _ => Some (t, Resolved {| json := Some (t', Resolved data) |}).

(** A network that never answers. *)
Definition silent {B : Type} : Network B := fun _ => None.

(** A network on which every request fails after [t] ms. *)
Definition failing {B : Type} (t : Z) : Network B :=
  fun _ => Some (t, Rejected NetworkError).

Definition emptyState : AppState :=
  {| topics := []; activeTopic := None; generatingTopicId := None |}.

(** The state after "Creatine" was submitted at clock 1000. *)
Definition submittedState : AppState :=
  fst (handleGenerate (epochHost 1000) (js "Creatine") advanced emptyState).

(** The placeholder that submission published. *)
Definition firstAttempt : Topic :=
  placeholderTopic (js "node-1000") (js "Creatine") (js "#6C63FF") advanced.

(** The state after that topic was retried at clock 200000. *)
Definition retriedState : AppState :=
  fst (handleRetryTopic (epochHost 200000) firstAttempt submittedState).

Definition secondAttempt : Topic :=
  placeholderTopic (js "node-200000") (js "Creatine") (js "#6C63FF") advanced.

(** The backend reports the submitted topic completed, with twelve cards. *)
Definition completedFeed : FeedData BackendTopicItem :=
  DataObject [(js "topics",
               [sampleItem (Some (js "completed")) (Some 12%Z) (Some EPOCH)])].

(* ------------------------------------------------------------------ *)
(** ** The rest of the application shell ([App.tsx]) *)

(** [!!(generatingTopicId && activeTopic?.id === generatingTopicId)]: whether
    the generating overlay is shown. *)
Definition isGenerating (st : AppState) : bool :=
  match generatingTopicId st with
  | Some g =>
      JsString.truthy g &&
      match activeTopic st with
      | Some a => JsString.eqb (id a) g
      | None => false
      end
  | None => false
  end.

(** *** Polling loops

    How the awaited gateway calls of one tick settle, and by how much the
    timer that starts the next tick is late.  [statusCall] is the promise
    of [api.pollTopicStatus(nodeId)], [refreshCall] that of the tick's own
    [api.getTopics()], consulted only when the tick reaches that call.
    Either may stay pending for ever: nothing in the shell bounds an
    [await]. *)
Record TickCalls := mkTickCalls {
  statusCall : Promise TopicStatus;
  refreshCall : Promise (list Topic);
  timerLate : Z
}.

(** How a tick ends: it has published, or has set the timer of the next
    tick, which will read the given elapsed time, or it never gets to
    either, because an awaited call stays pending or is rejected. *)
Inductive TickEnd :=
| Published (st : AppState)
| NextTick (elapsed : Z)
| Stuck.

(** [const refreshed = await api.getTopics()] and the three setters. *)
Definition refreshAndPublish (nodeId : jsstring) (c : TickCalls) (st : AppState)
  : TickEnd :=
  match refreshCall c with
  | Some (_, Resolved refreshed) => Published (publishRefreshed nodeId refreshed st)
  | _ => Stuck
  end.

(** One run of the [poll] closure of the current shell, awaits included.
    [elapsed] is [Date.now() - startTime] when the tick starts; the next
    tick starts after the status call, the interval and the lateness of
    the timer.  No other handler changes the state meanwhile. *)
Definition pollTick (nodeId : jsstring) (elapsed : Z) (c : TickCalls) (st : AppState)
  : TickEnd :=
  if (elapsed >? MAX_POLL_MS)%Z then refreshAndPublish nodeId c st
  else
    match statusCall c with
    | Some (t, Resolved ready) => refreshAndPublish nodeId c st
    | Some (t, Resolved generating) =>
        let interval := if (elapsed <? 120000)%Z then 4000%Z else 8000%Z in
        NextTick (elapsed + t + interval + timerLate c)%Z
    | _ => Stuck
    end.

(** How a loop stands after the ticks whose calls are listed. *)
Inductive LoopEnd :=
| Ended (st : AppState)
| StuckForEver
| StillRunning.

(** The ticks of a loop, chained by [setTimeout(poll, interval)]. *)
Fixpoint runTicks (tick : Z -> TickCalls -> AppState -> TickEnd)
    (elapsed : Z) (calls : list TickCalls) (st : AppState) : LoopEnd :=
  match calls with
  | [] => StillRunning
  | c :: rest =>
      match tick elapsed c st with
      | Published st' => Ended st'
      | NextTick elapsed' => runTicks tick elapsed' rest st
      | Stuck => StuckForEver
      end
  end.

(** The loop [handleGenerate] and [handleRetryTopic] start with
    [setTimeout(poll, 3000)]; [late] is the lateness of that first timer. *)
Definition pollLoop (nodeId : jsstring) (late : Z) (calls : list TickCalls)
    (st : AppState) : LoopEnd :=
  runTicks (pollTick nodeId) (3000 + late)%Z calls st.

(** What a tick meets: the clock and the network at its status call and at
    its refresh call, and the lateness of the timer it sets. *)
Record TickEnv := mkTickEnv {
  statusClock : Host;
  statusNet : Network (FeedData BackendTopicItem);
  refreshClock : Host;
  refreshNet : Network (FeedData BackendTopicItem);
  lateness : Z
}.

(** The calls of a tick made through the current gateway. *)
Definition gatewayCalls (nodeId : jsstring) (env : TickEnv) : TickCalls :=
  {| statusCall := settles (pollTopicStatus (statusClock env) (statusNet env) nodeId);
     refreshCall := settles (getTopics (refreshClock env) (refreshNet env));
     timerLate := lateness env |}.

(** *** The earlier shells

    [app/_layout.tsx] and the first [App.tsx] poll every five seconds for at
    most three minutes and have neither retry nor delete. *)

Module EarlierShell.

Definition MAX_POLL_MS : Z := 3 * 60 * 1000.

Definition pollTick (nodeId : jsstring) (elapsed : Z) (c : TickCalls) (st : AppState)
  : TickEnd :=
  if (elapsed >? MAX_POLL_MS)%Z then refreshAndPublish nodeId c st
  else
    match statusCall c with
    | Some (t, Resolved ready) => refreshAndPublish nodeId c st
    | Some (t, Resolved generating) => NextTick (elapsed + t + 5000 + timerLate c)%Z
    | _ => Stuck
    end.

(** Started with [setTimeout(poll, 5000)]. *)
Definition pollLoop (nodeId : jsstring) (late : Z) (calls : list TickCalls)
    (st : AppState) : LoopEnd :=
  runTicks (pollTick nodeId) (5000 + late)%Z calls st.

(** The calls of a tick made through the gateway kept under
    [src/services]. *)
Definition gatewayCalls (nodeId : jsstring) (env : TickEnv) : TickCalls :=
  {| statusCall := settles (ApiTs.pollTopicStatus (statusNet env) nodeId);
     refreshCall := settles (ApiTs.getTopics (refreshNet env));
     timerLate := lateness env |}.

End EarlierShell.

(* ------------------------------------------------------------------ *)
(** ** The quiz card ([components/cards/QuizCard.tsx]) *)

Module QuizCardView.

Inductive AnswerState := unanswered | correct | wrong.

Record State := mkState {
  selected : option jsstring;
  answerState : AnswerState
}.

Definition initial : State := {| selected := None; answerState := unanswered |}.

(** The shake animation of a wrong answer is left out. *)
Definition handleSelect (card : QuizCardData) (optionId : jsstring) (s : State) : State :=
  match answerState s with
  | unanswered =>
      {| selected := Some optionId;
         answerState :=
           if JsString.eqb optionId (correctOptionId card) then correct else wrong |}
  | _ => s
  end.

Inductive OptionStyle :=
| styleOption
| styleOptionSelected
| styleOptionCorrect
| styleOptionWrong
| styleOptionDimmed.

(** [selected === optionId]. *)
Definition isSelected (s : State) (optionId : jsstring) : bool :=
  match selected s with
  | Some x => JsString.eqb x optionId
  | None => false
  end.

Definition getOptionStyle (card : QuizCardData) (s : State) (optionId : jsstring)
  : OptionStyle :=
  match answerState s with
  | unanswered =>
      if isSelected s optionId then styleOptionSelected else styleOption
  | _ =>
      if JsString.eqb optionId (correctOptionId card) then styleOptionCorrect
      else if isSelected s optionId then styleOptionWrong
      else styleOptionDimmed
  end.

End QuizCardView.

(* ------------------------------------------------------------------ *)
(** ** The new-topic form ([components/AddTopicModal.tsx]) *)

Module AddTopicModal.

Record Form := mkForm {
  f_title : jsstring;
  f_depth : Depth
}.

(** What a press on the generate button does: the call of [onGenerate] if
    any, the form afterwards, and whether [onClose] was called. *)
Record Press := mkPress {
  submitted : option (jsstring * Depth);
  form : Form;
  closed : bool
}.

Definition handleGenerate (f : Form) : Press :=
  if negb (JsString.truthy (JsString.trim (f_title f))) then
    {| submitted := None; form := f; closed := false |}
  else
    {| submitted := Some (JsString.trim (f_title f), f_depth f);
       form := {| f_title := JsString.empty; f_depth := beginner |};
       closed := true |}.

End AddTopicModal.

(* ------------------------------------------------------------------ *)
(** ** The feed screen ([screens/FeedScreen.tsx]) *)

Module FeedScreen.

Record State := mkState {
  f_cards : list Card;
  currentIndex : nat;
  loading : bool
}.

(** The synchronous part of the effect on [topic?.id] and [isGenerating]:
    the id whose cards it asks for, if any, and the state it sets. *)
Definition effectStart (topic : option Topic) (isGenerating : bool) (s : State)
  : option jsstring * State :=
  match topic with
  | None => (None, s)
  | Some t =>
      if isGenerating then (None, s)
      else (Some (id t),
            {| f_cards := f_cards s; currentIndex := 0; loading := true |})
  end.

(** The [then] callback: [setCards(c); setLoading(false)]. *)
Definition effectDone (c : list Card) (s : State) : State :=
  {| f_cards := c; currentIndex := currentIndex s; loading := false |}.

(** The whole effect on a screen nothing else touches meanwhile: the state
    right after it ran, and the time and state at which its [then] callback
    runs, if it ever does.  A rejected promise has no callback here. *)
Definition effect (net : Network (FeedData BackendALU)) (topic : option Topic)
    (isGenerating : bool) (s : State) : State * option (Z * State) :=
  match effectStart topic isGenerating s with
  | (None, s1) => (s1, None)
  | (Some nodeId, s1) =>
      (s1,
       match settles (getCards net nodeId) with
       | Some (t, Resolved c) => Some (t, effectDone c s1)
       | _ => None
       end)
  end.

(** The three bodies the screen shows for a topic. *)
Inductive Body := LoadingCards | NoCardsYet | CardList (c : list Card).

Definition body (s : State) : Body :=
  if loading s then LoadingCards
  else match f_cards s with
       | [] => NoCardsYet
       | c => CardList c
       end.

End FeedScreen.

(* ------------------------------------------------------------------ *)
(** ** The authentication stub ([services/auth.ts]) *)

Module AuthService.

Record User := mkUser {
  u_id : jsstring;
  u_name : jsstring;
  u_email : jsstring;
  avatarUrl : option jsstring
}.

Record AuthState := mkAuthState {
  user : option User;
  isAuthenticated : bool
}.

Definition MOCK_USER : User :=
  {| u_id := js "user-1";
     u_name := js "Alex Learner";
     u_email := js "alex@loopmind.app";
     avatarUrl := Some (js "https://i.pravatar.cc/150?img=12") |}.

(** The module-level [authState] when the module is loaded. *)
Definition initialState : AuthState :=
  {| user := Some MOCK_USER; isAuthenticated := true |}.

Definition getUser (st : AuthState) : option User := user st.

(** [login]: the state it leaves and the promise it returns, settled after
    the 800 ms pause. *)
Definition login (email _password : jsstring) (st : AuthState)
  : AuthState * Promise User :=
  let u := {| u_id := u_id MOCK_USER;
              u_name := u_name MOCK_USER;
              u_email := email;
              avatarUrl := avatarUrl MOCK_USER |} in
  ({| user := Some u; isAuthenticated := true |}, Some (800%Z, Resolved u)).

Definition logout (st : AuthState) : AuthState * Promise unit :=
  ({| user := None; isAuthenticated := false |}, Some (300%Z, Resolved tt)).

Inductive Call :=
| Login (email password : jsstring)
| Logout.

Definition call (c : Call) (st : AuthState) : AuthState :=
  match c with
  | Login email password => fst (login email password st)
  | Logout => fst (logout st)
  end.

(** The state after a sequence of calls, each awaited. *)
Definition run (calls : list Call) (st : AuthState) : AuthState :=
  fold_left (fun s c => call c s) calls st.

End AuthService.

(* ------------------------------------------------------------------ *)
(** ** Vocabulary of the further statements *)

(** The id of a card, whatever its variant. *)
Definition cardId (c : Card) : jsstring :=
  match c with
  | ImageCard d => ic_id d
  | QuizCard d => qc_id d
  | FlashCard d => fc_id d
  end.

(** The discriminator is one the mapper knows. *)
Definition knownType (alu : BackendALU) : bool :=
  is_case "image" (postType alu) || is_case "quiz" (postType alu)
  || is_case "flashcard" (postType alu).

(** The same record with another [card_type]. *)
Definition withCardType (c : option jsstring) (alu : BackendALU) : BackendALU :=
  {| alu_id := alu_id alu;
     post_type := post_type alu;
     card_type := c;
     image_url := image_url alu;
     alu_caption := alu_caption alu;
     micro_explanation := micro_explanation alu;
     alu_hook := alu_hook alu;
     alu_credit := alu_credit alu;
     quiz := quiz alu;
     alu_question := alu_question alu;
     alu_explanation := alu_explanation alu;
     alu_front := alu_front alu;
     alu_back := alu_back alu;
     flashcard := flashcard alu;
     alu_hint := alu_hint alu |}.

(** The same host at another clock reading. *)
Definition atClock (now : Z) (h : Host) : Host :=
  {| Date_now := now; Date_parse := Date_parse h |}.

(** The calls of a tick that finds the topic still generating: both settle
    after [t] ms, the refresh with the list [l]. *)
Definition stillGenerating (t : Z) (l : list Topic) : TickCalls :=
  {| statusCall := Some (t, Resolved generating);
     refreshCall := Some (t, Resolved l);
     timerLate := 0%Z |}.

(** The timer is not early and the status call does not settle before it
    is made. *)
Definition causal (c : TickCalls) : Prop :=
  (0 <= timerLate c)%Z /\ forall t r, statusCall c = Some (t, r) -> (0 <= t)%Z.

(** Both calls of the tick resolve. *)
Definition resolves (c : TickCalls) : Prop :=
  (exists t s, statusCall c = Some (t, Resolved s))
  /\ (exists t l, refreshCall c = Some (t, Resolved l)).

(** Every answer of the network, and the reading of every body, takes
    time. *)
Definition wellTimed {B : Type} (net : Network B) : Prop :=
  forall req t r,
    net req = Some (t, r) ->
    (0 <= t)%Z
    /\ forall res, r = Resolved res ->
                   forall t' r', json res = Some (t', r') -> (0 <= t')%Z.

(** The body of every response that arrives is read to its end. *)
Definition bodiesRead {B : Type} (net : Network B) : Prop :=
  forall req t res, net req = Some (t, Resolved res) -> json res <> None.

(** Every request is answered or fails; none is left without an end. *)
Definition answers {B : Type} (net : Network B) : Prop :=
  forall req, net req <> None.

(** A tick whose timer is not early, whose status request takes time, and
    in which the body of every response that arrives is read to its end. *)
Definition bodiesReadAt (env : TickEnv) : Prop :=
  (0 <= lateness env)%Z
  /\ wellTimed (statusNet env)
  /\ bodiesRead (statusNet env)
  /\ bodiesRead (refreshNet env).

(** A tick that meets, at both calls, the clock [h] and the network
    [net], with a timer that is on time. *)
Definition meeting (h : Host) (net : Network (FeedData BackendTopicItem)) : TickEnv :=
  {| statusClock := h; statusNet := net;
     refreshClock := h; refreshNet := net;
     lateness := 0%Z |}.

(** Two ticks end alike: both publish the same state, both go on, or both
    are stuck. *)
Definition sameEnd (a b : TickEnd) : Prop :=
  match a, b with
  | Published s, Published s' => s = s'
  | NextTick _, NextTick _ => True
  | Stuck, Stuck => True
  | _, _ => False
  end.


(** The items a parsed [/feed] body carries for an operation that accepts
    the wrapper keys [names]; [None] for the body on which the lookup
    throws. *)
Definition payloadItems {A : Type} (names : list jsstring) (data : FeedData A)
  : option (list A) :=
  match data with
  | DataArray items => Some items
  | DataObject props => Some (firstProp props names)
  | DataNull => None
  end.

(** The value of a key of a request body. *)
Definition bodyField (req : Request) (key : string) : option jsstring :=
  getProp (body req) (js key).



(** The same for the loops of the earlier shells, 5 s apart up to three
    minutes. *)
Definition earlierTicksLeft (elapsed : Z) : Z :=
  if (elapsed >? 180000)%Z then 0%Z
  else ((180000 - elapsed) / 5000 + 1)%Z.


(** A network that answers every request after [t] ms with a response whose
    body is never read to its end. *)
Definition stalled {B : Type} (t : Z) : Network B :=
  fun _ => Some (t, Resolved {| json := None |}).

(* ================================================================== *)
(** * Properties *)

(** ** Strings *)

Lemma eqb_refl : forall a : jsstring, JsString.eqb a a = true.
Proof.
  induction a as [|x a IH]; simpl; [reflexivity|].
  now rewrite N.eqb_refl, IH.
Qed.

Lemma eqb_eq : forall a b : jsstring, JsString.eqb a b = true <-> a = b.
Proof.
  induction a as [|x a IH]; destruct b as [|y b]; simpl; split; intro H;
    try reflexivity; try discriminate.
  - apply andb_true_iff in H. destruct H as [Hxy Hab].
    apply N.eqb_eq in Hxy. apply IH in Hab. now subst.
  - injection H as -> ->. now rewrite N.eqb_refl, eqb_refl.
Qed.

Lemma eqb_neq : forall a b : jsstring, JsString.eqb a b = false <-> a <> b.
Proof.
  intros a b. rewrite <- eqb_eq. destruct (JsString.eqb a b); split; intro H;
    try reflexivity; try discriminate; try congruence.
Qed.

Lemma includes_In : forall (l : list jsstring) (s : jsstring),
  JsString.includes l s = true <-> In s l.
Proof.
  intros l s. unfold JsString.includes. rewrite existsb_exists. split.
  - intros [x [Hin Heq]]. apply eqb_eq in Heq. now subst.
  - intro Hin. exists s. split; [assumption | apply eqb_refl].
Qed.

Lemma isReadyStatus_Some : forall s : jsstring,
  isReadyStatus (Some s) = JsString.includes READY_STATUSES (normalized s).
Proof.
  intros [|c s]; reflexivity.
Qed.

Lemma ApiTs_isReadyStatus_Some : forall s : jsstring,
  ApiTs.isReadyStatus (Some s) = JsString.includes ApiTs.READY_STATUSES (normalized s).
Proof.
  intros [|c s]; reflexivity.
Qed.

Example isReadyStatus_mixed_case :
  isReadyStatus (Some (js "  ReAdY ")) = true.
Proof. reflexivity. Qed.

Example isReadyStatus_trailing_newline :
  isReadyStatus (Some (js "COMPLETED" ++ [0xA; 0xA0]%N)) = true.
Proof. reflexivity. Qed.

Example isReadyStatus_inner_space :
  isReadyStatus (Some (js "re ady")) = false.
Proof. reflexivity. Qed.

Example isReadyStatus_images_pending :
  isReadyStatus (Some (js "images_pending")) = true
  /\ ApiTs.isReadyStatus (Some (js "images_pending")) = false.
Proof. split; reflexivity. Qed.

(** C1. A status is ready exactly when it is present and its lowercased,
    whitespace-trimmed form is one of [ready], [completed], [done],
    [complete], [finished] or, in the current gateway, [images_pending];
    every other string, the empty one included, and an absent status are
    not ready.  The earlier gateway agrees on the five synonyms and does
    not accept [images_pending]. *)
Theorem isReadyStatus_synonyms : forall status : option jsstring,
  (isReadyStatus status = true <->
     exists s, status = Some s /\
       In (JsString.trim (JsString.toLowerCase s))
          [js "ready"; js "completed"; js "done"; js "complete";
           js "finished"; js "images_pending"])
  /\ (isReadyStatus status = false <->
        forall s, status = Some s ->
          ~ In (JsString.trim (JsString.toLowerCase s))
               [js "ready"; js "completed"; js "done"; js "complete";
                js "finished"; js "images_pending"])
  /\ (ApiTs.isReadyStatus status = true <->
        exists s, status = Some s /\
          In (JsString.trim (JsString.toLowerCase s))
             [js "ready"; js "completed"; js "done"; js "complete";
              js "finished"]).
Proof.
  intros [s|].
  - rewrite isReadyStatus_Some, ApiTs_isReadyStatus_Some.
    fold (normalized s). repeat split.
    + intro H. exists s. split; [reflexivity | now apply includes_In in H].
    + intros [s' [Heq Hin]]. injection Heq as <-. now apply includes_In.
    + intros H s' Heq Hin. injection Heq as <-.
      apply (includes_In READY_STATUSES) in Hin.
      change (JsString.includes READY_STATUSES (normalized s) = true) in Hin.
      rewrite Hin in H. discriminate.
    + intro H. destruct (JsString.includes READY_STATUSES (normalized s)) eqn:E;
        [|reflexivity].
      apply includes_In in E. now elim (H s eq_refl).
    + intro H. exists s. split; [reflexivity | now apply includes_In in H].
    + intros [s' [Heq Hin]]. injection Heq as <-. now apply includes_In.
  - simpl. repeat split; try discriminate;
      try (intros [s [Heq _]]; discriminate); reflexivity.
Qed.

(** *** Padding and letter case

    The classifier does not see white space around a status, nor the case
    of its ASCII letters. *)

Lemma isWhiteSpace_not_upper : forall c : N,
  JsString.isWhiteSpace c = true -> JsString.isUpperAscii c = false.
Proof.
  intros c H. unfold JsString.isWhiteSpace in H. unfold JsString.isUpperAscii.
  apply orb_true_iff in H. destruct H as [H | H].
  - simpl in H.
    repeat (apply orb_true_iff in H;
            destruct H as [H | H]; [apply N.eqb_eq in H; subst; reflexivity|]).
    discriminate.
  - apply andb_true_iff in H. destruct H as [Hlo _]. apply N.leb_le in Hlo.
    apply andb_false_iff. right. apply N.leb_gt. lia.
Qed.

Lemma toLowerCase_whiteSpace : forall s : jsstring,
  allWhiteSpace s -> JsString.toLowerCase s = s.
Proof.
  induction 1 as [|c s Hc _ IH]; simpl; [reflexivity|].
  unfold JsString.lowerUnit. now rewrite (isWhiteSpace_not_upper c Hc), IH.
Qed.

Lemma trimStart_whiteSpace_app : forall pre s : jsstring,
  allWhiteSpace pre -> JsString.trimStart (pre ++ s) = JsString.trimStart s.
Proof.
  induction 1 as [|c pre Hc _ IH]; simpl; [reflexivity|].
  now rewrite Hc.
Qed.

Lemma trimStart_whiteSpace : forall s : jsstring,
  allWhiteSpace s -> JsString.trimStart s = [].
Proof.
  intros s H. rewrite <- (app_nil_r s). now rewrite trimStart_whiteSpace_app.
Qed.

Lemma allWhiteSpace_rev : forall s : jsstring, allWhiteSpace s -> allWhiteSpace (rev s).
Proof. intros s H. now apply Forall_rev. Qed.

Lemma trimEnd_app_whiteSpace : forall s post : jsstring,
  allWhiteSpace post -> JsString.trimEnd (s ++ post) = JsString.trimEnd s.
Proof.
  intros s post H. unfold JsString.trimEnd.
  now rewrite rev_app_distr, trimStart_whiteSpace_app by now apply allWhiteSpace_rev.
Qed.

Lemma trimEnd_whiteSpace : forall s : jsstring,
  allWhiteSpace s -> JsString.trimEnd s = [].
Proof.
  intros s H. unfold JsString.trimEnd.
  now rewrite trimStart_whiteSpace by now apply allWhiteSpace_rev.
Qed.

Lemma trim_app_whiteSpace : forall s post : jsstring,
  allWhiteSpace post -> JsString.trim (s ++ post) = JsString.trim s.
Proof.
  intros s post Hpost. unfold JsString.trim.
  induction s as [|c s IH]; simpl.
  - now rewrite (trimStart_whiteSpace Hpost).
  - destruct (JsString.isWhiteSpace c); [assumption|].
    now rewrite app_comm_cons, trimEnd_app_whiteSpace.
Qed.

Lemma trim_padding : forall pre s post : jsstring,
  allWhiteSpace pre -> allWhiteSpace post ->
  JsString.trim (pre ++ s ++ post) = JsString.trim s.
Proof.
  intros pre s post Hpre Hpost.
  rewrite <- (trim_app_whiteSpace s Hpost).
  unfold JsString.trim. now rewrite trimStart_whiteSpace_app.
Qed.

Lemma isReadyStatus_ignores_padding : forall pre s post : jsstring,
  allWhiteSpace pre -> allWhiteSpace post ->
  isReadyStatus (Some (pre ++ s ++ post)) = isReadyStatus (Some s).
Proof.
  intros pre s post Hpre Hpost. rewrite !isReadyStatus_Some. unfold normalized.
  unfold JsString.toLowerCase. rewrite !map_app.
  fold (JsString.toLowerCase pre) (JsString.toLowerCase s) (JsString.toLowerCase post).
  rewrite (toLowerCase_whiteSpace Hpre), (toLowerCase_whiteSpace Hpost).
  now rewrite trim_padding.
Qed.

Lemma isReadyStatus_ignores_case : forall s s' : jsstring,
  JsString.toLowerCase s = JsString.toLowerCase s' ->
  isReadyStatus (Some s) = isReadyStatus (Some s').
Proof.
  intros s s' H. rewrite !isReadyStatus_Some. unfold normalized. now rewrite H.
Qed.

(** ** Stuck detection *)

Example isStuckGenerating_fifteen_minutes :
  isStuckGenerating (epochHost 900000) (agedItem (Some 0%Z)) = true
  /\ isStuckGenerating (epochHost 900000) (agedItem (Some 1%Z)) = false
  /\ isStuckGenerating (epochHost 900000) (agedItem None) = true.
Proof. repeat split; reflexivity. Qed.

Example isStuckGenerating_other_conditions :
  isStuckGenerating (epochHost 900000)
    (sampleItem (Some (js "done")) (Some 0%Z) (Some EPOCH)) = false
  /\ isStuckGenerating (epochHost 600000) (agedItem (Some 0%Z)) = false
  /\ isStuckGenerating (epochHost 900000)
       (sampleItem (Some (js "generating")) (Some 0%Z) None) = false
  /\ isStuckGenerating (epochHost 900000)
       (sampleItem (Some (js "generating")) (Some 0%Z) (Some (js "yesterday"))) = false.
Proof. repeat split; reflexivity. Qed.

(** C2, as stated, fails: the count guard is [(card_count ?? 0) > 0], so a
    record whose count is negative passes it.  Here the classifier answers
    [true] although the card count is not zero. *)
Lemma isStuckGenerating_negative_count :
  isStuckGenerating (epochHost 900000) (agedItem (Some (-1)%Z)) = true
  /\ card_count (agedItem (Some (-1)%Z)) ?? 0%Z <> 0%Z.
Proof. split; [reflexivity | discriminate]. Qed.

(** C2, amended. A topic record is stuck exactly when its status is not
    ready, its card count (0 when absent) is not positive, a non-empty
    [created_at] is present and parses, and the clock is more than ten
    minutes past it.  So a record without [created_at] is never stuck, and
    a ready status, a positive count, an age of ten minutes or less, or a
    missing timestamp each make the answer false. *)
Theorem isStuckGenerating_exactly : forall (h : Host) (item : BackendTopicItem),
  (isStuckGenerating h item = true <->
     isReadyStatus (bt_status item) = false
     /\ (card_count item ?? 0 <= 0)%Z
     /\ exists created createdMs,
          created_at item = Some created
          /\ created <> JsString.empty
          /\ Date_parse h created = Some createdMs
          /\ (Date_now h - createdMs > 10 * 60 * 1000)%Z)
  /\ (created_at item = None -> isStuckGenerating h item = false)
  /\ (isReadyStatus (bt_status item) = true -> isStuckGenerating h item = false)
  /\ ((card_count item ?? 0 > 0)%Z -> isStuckGenerating h item = false)
  /\ (forall created createdMs,
        created_at item = Some created ->
        Date_parse h created = Some createdMs ->
        (Date_now h - createdMs <= 10 * 60 * 1000)%Z ->
        isStuckGenerating h item = false).
Proof.
  intros h item. split; [split|].
  - (* stuck: every guard was passed *)
    unfold isStuckGenerating, STUCK_AFTER_MS.
    destruct (isReadyStatus (bt_status item)); [discriminate|].
    destruct (Z.gtb_spec (card_count item ?? 0%Z) 0%Z) as [Hpos|Hnonpos];
      [discriminate|].
    destruct (created_at item) as [[|c0 created]|]; simpl; try discriminate.
    destruct (Date_parse h (c0 :: created)) as [createdMs|] eqn:Hparse;
      [|discriminate].
    intro Hage. apply Z.gtb_lt in Hage.
    split; [reflexivity|]. split; [assumption|].
    exists (c0 :: created), createdMs.
    repeat split; try assumption; try discriminate. lia.
  - (* the four conditions pass every guard *)
    intros [Hready [Hcount [created [createdMs [Hcreated [Hne [Hparse Hage]]]]]]].
    unfold isStuckGenerating, STUCK_AFTER_MS. rewrite Hready.
    destruct (Z.gtb_spec (card_count item ?? 0%Z) 0%Z) as [Hpos|Hnonpos]; [lia|].
    rewrite Hcreated. destruct created as [|c0 created]; [now elim Hne|].
    simpl. rewrite Hparse. apply Z.gtb_lt. lia.
  - unfold isStuckGenerating, STUCK_AFTER_MS. repeat split.
    + intros ->. destruct (isReadyStatus (bt_status item)); [reflexivity|].
      destruct (card_count item ?? 0%Z >? 0)%Z; reflexivity.
    + now intros ->.
    + intro Hpos. apply Z.gt_lt in Hpos. apply Z.gtb_lt in Hpos. rewrite Hpos.
      destruct (isReadyStatus (bt_status item)); reflexivity.
    + intros created createdMs -> Hparse Hage.
      destruct (isReadyStatus (bt_status item)); [reflexivity|].
      destruct (card_count item ?? 0%Z >? 0)%Z; [reflexivity|].
      destruct created; [reflexivity|]. simpl. rewrite Hparse.
      rewrite Z.gtb_ltb. apply Z.ltb_ge. lia.
Qed.

Lemma isStuckGenerating_exactly_witness :
  isStuckGenerating (epochHost 900000) (agedItem (Some 0%Z)) = true
  /\ isStuckGenerating (epochHost 900000) (agedItem (Some 1%Z)) = false
  /\ isStuckGenerating (epochHost 600000) (agedItem (Some 0%Z)) = false.
Proof.
  split; [|split].
  - apply (proj1 (isStuckGenerating_exactly (epochHost 900000) (agedItem (Some 0%Z)))).
    split; [reflexivity|]. split; [discriminate|].
    exists EPOCH, 0%Z. repeat split; discriminate.
  - destruct (isStuckGenerating_exactly (epochHost 900000) (agedItem (Some 1%Z)))
      as [_ [_ [_ [Hpositive _]]]].
    apply Hpositive. reflexivity.
  - destruct (isStuckGenerating_exactly (epochHost 600000) (agedItem (Some 0%Z)))
      as [_ [_ [_ [_ Hrecent]]]].
    apply (Hrecent EPOCH 0%Z); [reflexivity | reflexivity | discriminate].
Defined.

(** ** Card mapping *)


Lemma nth_error_mapi_from : forall (A B : Type) (f : A -> nat -> B) (l : list A) (i k : nat),
  nth_error (mapi_from i f l) k = option_map (fun x => f x (i + k)) (nth_error l k).
Proof.
  intros A B f. induction l as [|x l IH]; intros i k.
  - destruct k; reflexivity.
  - destruct k as [|k]; simpl.
    + now rewrite Nat.add_0_r.
    + rewrite IH. now rewrite Nat.add_succ_r.
Qed.

Lemma nth_error_mapi : forall (A B : Type) (f : A -> nat -> B) (l : list A) (k : nat),
  nth_error (mapi f l) k = option_map (fun x => f x k) (nth_error l k).
Proof.
  intros. unfold mapi. now rewrite nth_error_mapi_from.
Qed.

Lemma length_mapi_from : forall (A B : Type) (f : A -> nat -> B) (l : list A) (i : nat),
  List.length (mapi_from i f l) = List.length l.
Proof.
  intros A B f. induction l as [|x l IH]; intro i; simpl; [reflexivity|].
  now rewrite IH.
Qed.

Lemma map_mapi_from : forall (A B C : Type) (g : B -> C) (f : A -> nat -> B)
    (l : list A) (i : nat),
  map g (mapi_from i f l) = mapi_from i (fun x k => g (f x k)) l.
Proof.
  intros A B C g f. induction l as [|x l IH]; intro i; simpl; [reflexivity|].
  now rewrite IH.
Qed.

Lemma mapi_from_const : forall (A : Type) (l : list A) (i : nat),
  mapi_from i (fun x _ => x) l = l.
Proof.
  intros A. induction l as [|x l IH]; intro i; simpl; [reflexivity|].
  now rewrite IH.
Qed.

Lemma mapALUToCard_quiz_eq : forall alu : BackendALU,
  postType alu = Some (js "quiz") ->
  mapALUToCard alu =
    (Some (QuizCard {|
       qc_id := alu_id alu;
       question := (bq_question (quiz alu ?? emptyQuiz) ?| alu_question alu)
                     ?? JsString.empty;
       options :=
         mapi (fun text i => {| opt_id := JsString.ofIndex i; opt_text := text |})
           (choices (quiz alu ?? emptyQuiz) ?? []);
       correctOptionId :=
         JsString.ofNumber (answer_index (quiz alu ?? emptyQuiz) ?? 0%Z);
       explanation := (bq_explanation (quiz alu ?? emptyQuiz) ?| alu_explanation alu)
                        ?? JsString.empty |}), []).
Proof.
  intros alu H. unfold mapALUToCard. rewrite H. reflexivity.
Qed.

Example mapALUToCard_quiz_scenario :
  fst (mapALUToCard quizALU) =
    Some (QuizCard {|
      qc_id := js "alu-1";
      question := js "Q?";
      options := [ {| opt_id := js "0"; opt_text := js "A" |};
                   {| opt_id := js "1"; opt_text := js "B" |};
                   {| opt_id := js "2"; opt_text := js "C" |} ];
      correctOptionId := js "1";
      explanation := js "E" |}).
Proof. reflexivity. Qed.

(** C4. A record whose discriminator is [quiz] maps to a quiz card, with no
    diagnostic.  Its options are the nested [quiz.choices] in order (none
    when the list or the [quiz] object is absent): there are as many, the
    option at position [i] has id [String(i)] and the text of choice [i].
    Its [correctOptionId] is [String(quiz.answer_index)], which is ["0"]
    when [answer_index] is absent. *)
Theorem mapALUToCard_quiz : forall alu : BackendALU,
  postType alu = Some (js "quiz") ->
  exists q : QuizCardData,
    mapALUToCard alu = (Some (QuizCard q), [])
    /\ map opt_text (options q) = choices (quiz alu ?? emptyQuiz) ?? []
    /\ List.length (options q) = List.length (choices (quiz alu ?? emptyQuiz) ?? [])
    /\ (forall i : nat,
          nth_error (options q) i =
            option_map (fun text => {| opt_id := JsString.ofIndex i; opt_text := text |})
              (nth_error (choices (quiz alu ?? emptyQuiz) ?? []) i))
    /\ correctOptionId q =
         JsString.ofNumber (answer_index (quiz alu ?? emptyQuiz) ?? 0%Z)
    /\ (answer_index (quiz alu ?? emptyQuiz) = None -> correctOptionId q = js "0").
Proof.
  intros alu H. eexists. split; [apply (mapALUToCard_quiz_eq alu H)|].
  simpl. repeat split.
  - unfold mapi. rewrite map_mapi_from. simpl. apply mapi_from_const.
  - apply length_mapi_from.
  - intro i. apply nth_error_mapi.
  - intros ->. reflexivity.
Qed.

Lemma mapALUToCard_quiz_witness :
  postType quizALU = Some (js "quiz")
  /\ exists q : QuizCardData,
       mapALUToCard quizALU = (Some (QuizCard q), [])
       /\ map opt_text (options q) = [js "A"; js "B"; js "C"]
       /\ correctOptionId q = js "1".
Proof.
  split; [reflexivity|].
  destruct (mapALUToCard_quiz quizALU eq_refl) as [q [Hq [Htexts [_ [_ [Hcorrect _]]]]]].
  exists q. repeat split; assumption.
Defined.

Lemma mapALUToCard_flashcard_eq : forall alu : BackendALU,
  postType alu = Some (js "flashcard") ->
  mapALUToCard alu =
    (Some (FlashCard {|
       fc_id := alu_id alu;
       front := match flashcard alu with
                | Some (FlashObject ((k, _) :: _)) => k
                | _ => alu_front alu ?? JsString.empty
                end;
       back := match flashcard alu with
               | Some (FlashObject ((_, v) :: _)) => v
               | _ => alu_back alu ?? JsString.empty
               end;
       fc_hint := alu_hint alu |}), []).
Proof.
  intros alu H. unfold mapALUToCard. rewrite H.
  destruct (flashcard alu) as [[[|[k v] rest]|]|]; reflexivity.
Qed.

Example mapALUToCard_flashcard_scenario :
  fst (mapALUToCard (flashALU [])) =
    Some (FlashCard {| fc_id := js "alu-2";
                       front := js "What is X?";
                       back := js "X is Y";
                       fc_hint := None |}).
Proof. reflexivity. Qed.

(** C5. A record whose discriminator is [flashcard] maps to a flashcard.
    When its [flashcard] mapping has a first entry, the key of that entry is
    the front and its value the back, whatever entries follow and whatever
    the explicit [front]/[back] fields hold.  When the mapping is absent the
    front and back are the explicit fields, each the empty string when
    missing. *)
Theorem mapALUToCard_flashcard : forall alu : BackendALU,
  postType alu = Some (js "flashcard") ->
  exists f : FlashCardData,
    mapALUToCard alu = (Some (FlashCard f), [])
    /\ (forall k v rest,
          flashcard alu = Some (FlashObject ((k, v) :: rest)) ->
          front f = k /\ back f = v)
    /\ (flashcard alu = None ->
          front f = alu_front alu ?? JsString.empty
          /\ back f = alu_back alu ?? JsString.empty).
Proof.
  intros alu H. eexists. split; [apply (mapALUToCard_flashcard_eq alu H)|].
  simpl. split.
  - intros k v rest ->. split; reflexivity.
  - intros ->. split; reflexivity.
Qed.

Lemma mapALUToCard_flashcard_witness :
  postType (flashALU [(js "Second?", js "ignored")]) = Some (js "flashcard")
  /\ exists f : FlashCardData,
       mapALUToCard (flashALU [(js "Second?", js "ignored")]) = (Some (FlashCard f), [])
       /\ front f = js "What is X?"
       /\ back f = js "X is Y".
Proof.
  split; [reflexivity|].
  destruct (mapALUToCard_flashcard (flashALU [(js "Second?", js "ignored")]) eq_refl)
    as [f [Hf [Hfirst _]]].
  exists f. split; [assumption|].
  exact (Hfirst _ _ _ eq_refl).
Defined.

(** An empty mapping and a value that is not an object fall back to the
    explicit fields as well. *)
Lemma mapALUToCard_flashcard_fallbacks : forall (alu : BackendALU) (f : FlashCardData),
  postType alu = Some (js "flashcard") ->
  flashcard alu = Some (FlashObject []) \/ flashcard alu = Some FlashPrimitive ->
  fst (mapALUToCard alu) = Some (FlashCard f) ->
  front f = alu_front alu ?? JsString.empty /\ back f = alu_back alu ?? JsString.empty.
Proof.
  intros alu f H Hfc. rewrite (mapALUToCard_flashcard_eq alu H). simpl.
  intro Heq. injection Heq as <-. simpl.
  destruct Hfc as [-> | ->]; split; reflexivity.
Qed.

Lemma join_In : forall (sep : jsstring) (parts : list jsstring) (c : N),
  In c (JsString.join sep parts) ->
  In c sep \/ exists p, In p parts /\ In c p.
Proof.
  intros sep. induction parts as [|p parts IH]; intros c Hin; simpl in Hin.
  - contradiction.
  - destruct parts as [|q parts].
    + right. exists p. split; [now left | assumption].
    + apply in_app_or in Hin. destruct Hin as [Hp | Hin].
      * right. exists p. split; [now left | assumption].
      * apply in_app_or in Hin. destruct Hin as [Hsep | Hrest]; [now left|].
        destruct (IH c Hrest) as [Hs | [p' [Hp' Hc]]]; [now left|].
        right. exists p'. split; [now right | assumption].
Qed.

Lemma join_length : forall (sep : jsstring) (parts : list jsstring),
  List.length (JsString.join sep parts) =
    (list_sum (map (@List.length N) parts)
     + List.length sep * (List.length parts - 1))%nat.
Proof.
  intros sep. induction parts as [|p parts IH]; [simpl; lia|].
  destruct parts as [|q parts].
  - simpl. lia.
  - change (JsString.join sep (p :: q :: parts))
      with (p ++ sep ++ JsString.join sep (q :: parts)).
    rewrite !length_app, IH. simpl. lia.
Qed.

Lemma mapALUToCard_image_eq : forall alu : BackendALU,
  postType alu = Some (js "image") ->
  mapALUToCard alu =
    (Some (ImageCard {|
       ic_id := alu_id alu;
       imageUrl := image_url alu ?? JsString.empty;
       caption := alu_caption alu ??
                    match micro_explanation alu with
                    | Some (MicroArray fragments) => JsString.join [0x20%N] fragments
                    | _ => JsString.empty
                    end;
       hook := Some (alu_hook alu ?? JsString.empty);
       ic_credit := alu_credit alu |}), []).
Proof.
  intros alu H. unfold mapALUToCard. rewrite H. reflexivity.
Qed.

Example mapALUToCard_image_joined :
  exists c, fst (mapALUToCard (imageALU None)) = Some (ImageCard c)
            /\ caption c = js "Muscles store creatine.".
Proof. eexists. split; reflexivity. Qed.

(** C6. A record whose discriminator is [image] maps to an image card.
    Its caption is the explicit [caption] when that is present; otherwise,
    when [micro_explanation] is an array, the fragments joined with one
    space (U+0020) between neighbours, so a line feed occurs in it only if
    a fragment contains one; and the empty string when there is neither. *)
Theorem mapALUToCard_image_caption : forall alu : BackendALU,
  postType alu = Some (js "image") ->
  exists c : ImageCardData,
    mapALUToCard alu = (Some (ImageCard c), [])
    /\ (forall s, alu_caption alu = Some s -> caption c = s)
    /\ (forall fragments,
          alu_caption alu = None ->
          micro_explanation alu = Some (MicroArray fragments) ->
          caption c = JsString.join (js " ") fragments
          /\ (In 0xA%N (caption c) -> exists p, In p fragments /\ In 0xA%N p))
    /\ (alu_caption alu = None ->
        micro_explanation alu = None \/ micro_explanation alu = Some MicroOther ->
        caption c = JsString.empty).
Proof.
  intros alu H. eexists. split; [apply (mapALUToCard_image_eq alu H)|].
  simpl. split; [|split].
  - now intros s ->.
  - intros fragments Hcap Hmicro. rewrite Hcap, Hmicro. simpl.
    split; [reflexivity|]. intro Hin.
    destruct (join_In _ _ _ Hin) as [Hsep | Hp]; [|assumption].
    simpl in Hsep. destruct Hsep as [Hsep | []]. discriminate.
  - intros Hcap [Hm | Hm]; rewrite Hcap, Hm; reflexivity.
Qed.

Lemma mapALUToCard_image_caption_witness :
  postType (imageALU None) = Some (js "image")
  /\ exists c : ImageCardData,
       mapALUToCard (imageALU None) = (Some (ImageCard c), [])
       /\ caption c = js "Muscles store creatine.".
Proof.
  split; [reflexivity|].
  destruct (mapALUToCard_image_caption (imageALU None) eq_refl)
    as [c [Hc [_ [Hjoin _]]]].
  exists c. split; [assumption|].
  exact (proj1 (Hjoin _ eq_refl eq_refl)).
Defined.

(** ** Batches of cards *)






Lemma mapCards_cons : forall (alu : BackendALU) (l : list BackendALU),
  mapCards (alu :: l) =
    (match fst (mapALUToCard alu) with
     | Some c => c :: fst (mapCards l)
     | None => fst (mapCards l)
     end,
     snd (mapALUToCard alu) ++ snd (mapCards l)).
Proof.
  intros alu l. unfold mapCards. simpl.
  destruct (fst (mapALUToCard alu)); reflexivity.
Qed.





(** ** Promises *)

Lemma fetchWithTimeout_unanswered :
  forall (B : Type) (net : Network B) (req : Request) (ms : Z),
  unanswered net req ms ->
  fetchWithTimeout net req ms = Some (ms, Rejected RequestTimedOut).
Proof.
  intros B net req ms [Hnone | [t [r [Hsome Hlate]]]];
    unfold fetchWithTimeout, fetch, race, rejectAfter.
  - now rewrite Hnone.
  - rewrite Hsome. apply Z.leb_gt in Hlate. now rewrite Hlate.
Qed.

Lemma fetchWithTimeout_in_time :
  forall (B : Type) (net : Network B) (req : Request) (ms t : Z)
         (r : Settled (Response B)),
  net req = Some (t, r) -> (t <= ms)%Z ->
  fetchWithTimeout net req ms = Some (t, r).
Proof.
  intros B net req ms t r Hsome Hle.
  unfold fetchWithTimeout, fetch, race, rejectAfter.
  rewrite Hsome. apply Z.leb_le in Hle. now rewrite Hle.
Qed.

(** The race against the timer settles by the timeout, whatever the
    network does. *)
Lemma fetchWithTimeout_bounded :
  forall (B : Type) (net : Network B) (req : Request) (ms : Z),
  settlesWithin ms (fetchWithTimeout net req ms).
Proof.
  intros B net req ms. unfold settlesWithin, fetchWithTimeout, fetch, race, rejectAfter.
  destruct (net req) as [[t r]|].
  - destruct (Z.leb_spec t ms) as [Hle | Hgt].
    + exists t, r. split; [reflexivity | assumption].
    + exists ms, (Rejected RequestTimedOut). split; [reflexivity | lia].
  - exists ms, (Rejected RequestTimedOut). split; [reflexivity | lia].
Qed.

Lemma try_catch_neverRejects :
  forall (A : Type) (m : Async A) (handler : JsError -> Async A),
  (forall e, neverRejects (settles (handler e))) ->
  neverRejects (settles (try_catch m handler)).
Proof.
  intros A [c [[t [a | e]]|]] handler Hh t0 e0; simpl; try discriminate.
  specialize (Hh e). unfold neverRejects in Hh.
  destruct (settles (handler e)) as [[t1 [a1 | e1]]|]; simpl; try discriminate.
  now elim (Hh t1 e1).
Qed.

Lemma fallback_neverRejects :
  forall (A : Type) (w : ConsoleEvent) (d : A),
  neverRejects (settles (log w ;;; ret d)).
Proof. intros A w d t e. discriminate. Qed.

(** The shape shared by the four awaited calls: when the request promise
    is rejected, the catch block logs and returns the fallback. *)
Lemma awaited_call_rejected :
  forall (B A : Type) (p : Promise (Response B)) (k : Response B -> Async A)
         (w : ConsoleEvent) (d : A) (t : Z) (e : JsError),
  p = Some (t, Rejected e) ->
  try_catch (res <- await p ;; k res) (fun _ => log w ;;; ret d)
  = ([w], Some (t, Resolved d)).
Proof.
  intros B A p k w d t e ->. simpl. now rewrite Z.add_0_r.
Qed.

(** ** Gateway fallbacks *)

(** The catch block of an awaited call takes over a rejected request. *)
Ltac caught_with e :=
  unfold getTopics, getCards, markLearnt, deleteTopic;
  now apply awaited_call_rejected with (e := e).

(** A call wrapped in [try]/[catch] whose handler cannot fail. *)
Ltac never_rejects :=
  intros; apply try_catch_neverRejects; intro;
  first [ apply fallback_neverRejects | intros ? ?; discriminate ].

Lemma getTopics_rejected :
  forall (h : Host) (net : Network (FeedData BackendTopicItem)) (t : Z) (e : JsError),
  fetchWithTimeout net getTopics_request DEFAULT_TIMEOUT_MS = Some (t, Rejected e) ->
  getTopics h net = ([WarnGetTopicsFailed], Some (t, Resolved [])).
Proof. intros h net t e H. caught_with e. Qed.

Lemma getCards_rejected :
  forall (net : Network (FeedData BackendALU)) (nodeId : jsstring) (t : Z) (e : JsError),
  fetchWithTimeout net (getCards_request nodeId) DEFAULT_TIMEOUT_MS = Some (t, Rejected e) ->
  getCards net nodeId = ([WarnGetCardsFailed], Some (t, Resolved [])).
Proof. intros net nodeId t e H. caught_with e. Qed.

Lemma markLearnt_rejected :
  forall (net : Network Json) (aluId nodeId : jsstring) (t : Z) (e : JsError),
  fetchWithTimeout net (markLearnt_request aluId nodeId) DEFAULT_TIMEOUT_MS
    = Some (t, Rejected e) ->
  markLearnt net aluId nodeId = ([WarnMarkLearntFailed], Some (t, Resolved emptyObject)).
Proof. intros net a n t e H. caught_with e. Qed.

Lemma deleteTopic_rejected :
  forall (net : Network Json) (nodeId : jsstring) (t : Z) (e : JsError),
  fetchWithTimeout net (deleteTopic_request nodeId) DEFAULT_TIMEOUT_MS
    = Some (t, Rejected e) ->
  deleteTopic net nodeId = ([WarnDeleteTopicFailed], Some (t, Resolved emptyObject)).
Proof. intros net n t e H. caught_with e. Qed.

Lemma getTopics_neverRejects :
  forall (h : Host) (net : Network (FeedData BackendTopicItem)),
  neverRejects (settles (getTopics h net)).
Proof. never_rejects. Qed.

Lemma getCards_neverRejects :
  forall (net : Network (FeedData BackendALU)) (nodeId : jsstring),
  neverRejects (settles (getCards net nodeId)).
Proof. never_rejects. Qed.

Lemma markLearnt_neverRejects :
  forall (net : Network Json) (aluId nodeId : jsstring),
  neverRejects (settles (markLearnt net aluId nodeId)).
Proof. never_rejects. Qed.

Lemma deleteTopic_neverRejects :
  forall (net : Network Json) (nodeId : jsstring),
  neverRejects (settles (deleteTopic net nodeId)).
Proof. never_rejects. Qed.

Lemma pollTopicStatus_neverRejects :
  forall (h : Host) (net : Network (FeedData BackendTopicItem)) (nodeId : jsstring),
  neverRejects (settles (pollTopicStatus h net nodeId)).
Proof. never_rejects. Qed.

Lemma generateTopic_detached_neverRejects :
  forall (B : Type) (net : Network B) (req : Request),
  neverRejects (settles (generateTopic_detached net req)).
Proof. never_rejects. Qed.

(** What the detached exchange of [generateTopic] does, by what the network
    does. *)
Lemma generateTopic_detached_cases :
  forall (B : Type) (net : Network B) (req : Request),
  match net req with
  | None => generateTopic_detached net req = ([], None)
  | Some (t, Rejected _) =>
      generateTopic_detached net req = ([LogGenerateTimedOut], Some (t, Resolved tt))
  | Some (t, Resolved res) =>
      match json res with
      | None => generateTopic_detached net req = ([], None)
      | Some (t', Rejected _) =>
          generateTopic_detached net req
          = ([LogGenerateTimedOut], Some ((t + t')%Z, Resolved tt))
      | Some (t', Resolved _) =>
          generateTopic_detached net req
          = ([LogGenerateResponse], Some ((t + t')%Z, Resolved tt))
      end
  end.
Proof.
  intros B net req. unfold generateTopic_detached, fetch.
  destruct (net req) as [[t [res | e]]|]; simpl; try reflexivity.
  - destruct (json res) as [[t' [data | e]]|]; simpl;
      now rewrite ?Z.add_0_r.
  - now rewrite Z.add_0_r.
Qed.

Example getTopics_times_out :
  getTopics (epochHost 0) silent = ([WarnGetTopicsFailed], Some (15000%Z, Resolved [])).
Proof. reflexivity. Qed.

Example getTopics_null_body :
  getTopics (epochHost 0) (answering 40 5 DataNull)
  = ([LogGetTopicsRaw; WarnGetTopicsFailed], Some (45%Z, Resolved [])).
Proof. reflexivity. Qed.

Example markLearnt_network_error :
  markLearnt (failing 70) (js "alu-1") (js "node-1000")
  = ([WarnMarkLearntFailed], Some (70%Z, Resolved emptyObject)).
Proof. reflexivity. Qed.

(** C3, as stated, fails: [generateTopic] sends its request with a plain
    [fetch], not with [fetchWithTimeout].  On a network that never answers,
    the request stays pending for ever: no bound applies to it, and the
    detached exchange neither logs nor settles. *)
Lemma generateTopic_request_has_no_timeout :
  snd (generateTopic (epochHost 1000) (@silent Json) (js "Creatine") None None)
  = ([], None)
  /\ ~ (exists ms : Z,
          settlesWithin ms
            (fetch (@silent Json)
               (generateTopic_request (js "node-1000") (js "Creatine") JsString.empty))).
Proof.
  split; [reflexivity|].
  intros [ms [t [r [H _]]]]. discriminate.
Qed.

(** C3, amended. The four awaited calls, [getTopics], [getCards],
    [markLearnt] and [deleteTopic], race their request against a 15 second
    timer; the request of [generateTopic] has no timer and stays pending
    on a network that never answers.  When a request of the four gets no
    answer within 15 seconds, the call settles at 15 seconds, and when the
    request fails earlier, at that moment: the reads resolve to the empty
    list and the writes to the empty object.  No gateway operation is ever
    rejected, the promise [generateTopic] returns and its detached exchange
    included. *)
Theorem gateway_timeout_fallbacks :
  forall (h : Host)
         (netT : Network (FeedData BackendTopicItem))
         (netC : Network (FeedData BackendALU))
         (netJ : Network Json)
         (aluId nodeId title : jsstring) (rawText optId : option jsstring),
  (* timeout *)
  (unanswered netT getTopics_request 15000 ->
     getTopics h netT = ([WarnGetTopicsFailed], Some (15000%Z, Resolved [])))
  /\ (unanswered netC (getCards_request nodeId) 15000 ->
        getCards netC nodeId = ([WarnGetCardsFailed], Some (15000%Z, Resolved [])))
  /\ (unanswered netJ (markLearnt_request aluId nodeId) 15000 ->
        markLearnt netJ aluId nodeId
        = ([WarnMarkLearntFailed], Some (15000%Z, Resolved (JObject []))))
  /\ (unanswered netJ (deleteTopic_request nodeId) 15000 ->
        deleteTopic netJ nodeId
        = ([WarnDeleteTopicFailed], Some (15000%Z, Resolved (JObject []))))
  (* transport failure *)
  /\ (forall t e, netT getTopics_request = Some (t, Rejected e) -> (t <= 15000)%Z ->
        getTopics h netT = ([WarnGetTopicsFailed], Some (t, Resolved [])))
  /\ (forall t e, netC (getCards_request nodeId) = Some (t, Rejected e) -> (t <= 15000)%Z ->
        getCards netC nodeId = ([WarnGetCardsFailed], Some (t, Resolved [])))
  /\ (forall t e, netJ (markLearnt_request aluId nodeId) = Some (t, Rejected e) ->
        (t <= 15000)%Z ->
        markLearnt netJ aluId nodeId
        = ([WarnMarkLearntFailed], Some (t, Resolved (JObject []))))
  /\ (forall t e, netJ (deleteTopic_request nodeId) = Some (t, Rejected e) ->
        (t <= 15000)%Z ->
        deleteTopic netJ nodeId
        = ([WarnDeleteTopicFailed], Some (t, Resolved (JObject []))))
  (* no rejection *)
  /\ neverRejects (settles (getTopics h netT))
  /\ neverRejects (settles (getCards netC nodeId))
  /\ neverRejects (settles (markLearnt netJ aluId nodeId))
  /\ neverRejects (settles (deleteTopic netJ nodeId))
  /\ neverRejects (settles (fst (generateTopic h netJ title rawText optId)))
  /\ neverRejects (settles (snd (generateTopic h netJ title rawText optId)))
  (* the request of generateTopic carries no timer *)
  /\ (netJ (generateTopic_request (submissionId h optId) title (rawText ?? JsString.empty))
      = None ->
      snd (generateTopic h netJ title rawText optId) = ([], None)).
Proof.
  intros h netT netC netJ aluId nodeId title rawText optId.
  repeat match goal with |- _ /\ _ => split end.
  - intro H. apply getTopics_rejected with (e := RequestTimedOut).
    now apply fetchWithTimeout_unanswered.
  - intro H. apply getCards_rejected with (e := RequestTimedOut).
    now apply fetchWithTimeout_unanswered.
  - intro H. apply markLearnt_rejected with (e := RequestTimedOut).
    now apply fetchWithTimeout_unanswered.
  - intro H. apply deleteTopic_rejected with (e := RequestTimedOut).
    now apply fetchWithTimeout_unanswered.
  - intros t e H Ht. apply getTopics_rejected with (e := e).
    now apply fetchWithTimeout_in_time.
  - intros t e H Ht. apply getCards_rejected with (e := e).
    now apply fetchWithTimeout_in_time.
  - intros t e H Ht. apply markLearnt_rejected with (e := e).
    now apply fetchWithTimeout_in_time.
  - intros t e H Ht. apply deleteTopic_rejected with (e := e).
    now apply fetchWithTimeout_in_time.
  - apply getTopics_neverRejects.
  - apply getCards_neverRejects.
  - apply markLearnt_neverRejects.
  - apply deleteTopic_neverRejects.
  - intros t e. discriminate.
  - apply generateTopic_detached_neverRejects.
  - intro H. simpl.
    pose proof (generateTopic_detached_cases netJ
      (generateTopic_request (submissionId h optId) title (rawText ?? JsString.empty)))
      as Hcases.
    now rewrite H in Hcases.
Qed.

Lemma gateway_timeout_fallbacks_witness :
  getTopics (epochHost 0) silent = ([WarnGetTopicsFailed], Some (15000%Z, Resolved []))
  /\ deleteTopic (failing 70) (js "node-1000")
     = ([WarnDeleteTopicFailed], Some (70%Z, Resolved (JObject []))).
Proof.
  destruct (gateway_timeout_fallbacks (epochHost 0) silent silent (failing 70)
              (js "alu-1") (js "node-1000") (js "Creatine") None None)
    as [Htimeout [_ [_ [_ [_ [_ [_ [Hfailure _]]]]]]]].
  split.
  - apply Htimeout. left. reflexivity.
  - apply (Hfailure 70%Z NetworkError); [reflexivity | discriminate].
Defined.

(** ** Submission *)

Example generateTopic_fresh_id :
  fst (generateTopic (epochHost 1000) (@failing Json 29000) (js "Creatine") None None)
  = ([], Some (0%Z, Resolved {| gr_node_id := js "node-1000" |})).
Proof. reflexivity. Qed.

Example ApiTs_generateTopic_answered :
  ApiTs.generateTopic (epochHost 1000) (answering 300 20 JNull) (js "Creatine") None None
  = ([LogGenerateResponse], Some (320%Z, Resolved {| gr_node_id := js "node-1000" |})).
Proof. reflexivity. Qed.

(** C8, as stated, fails for the earlier gateway, whose [generateTopic]
    awaits its request under a five second abort and then the body.  On a
    network that never answers it resolves at 5000 ms, not at once; and
    when a response arrives in time whose body is never read to its end,
    it does not resolve at all. *)
Lemma earlier_generateTopic_waits_for_request :
  settles (ApiTs.generateTopic (epochHost 1000) (@silent Json) (js "Creatine") None None)
  = Some (5000%Z, Resolved {| gr_node_id := js "node-1000" |})
  /\ settles (ApiTs.generateTopic (epochHost 1000) (@silent Json) (js "Creatine") None None)
     <> Some (0%Z, Resolved {| gr_node_id := js "node-1000" |})
  /\ settles (ApiTs.generateTopic (epochHost 1000) (@stalled Json 100) (js "Creatine")
                None None)
     = None.
Proof. split; [reflexivity|]. split; [discriminate | reflexivity]. Qed.

(** C8, amended. In the current gateway [generateTopic] returns a promise
    that is already resolved (at time 0, nothing logged) with the object
    whose [node_id] is the given [nodeId], or [node-<Date.now()>] when none
    was given, whatever the title, the raw text and the network do.  Its
    request runs detached and is never rejected: it logs the response once
    that has arrived and its body has parsed, logs the expected time-out
    when the request or the body fails, and logs nothing while either is
    pending.  In the earlier gateway [generateTopic] awaits the request
    under a five second abort and is never rejected either: it resolves to
    the same object when the request fails, at 5000 ms when the request is
    not answered by then, and when the body of an in-time response has
    been read or has failed to parse, with the same two log lines; it stays
    pending while that body is not read to its end. *)
Theorem generateTopic_returns_submission_id :
  forall (B : Type) (h : Host) (net : Network B) (title : jsstring)
         (rawText nodeId : option jsstring),
  let sid := nodeId ?? (js "node-" ++ JsString.ofNumber (Date_now h)) in
  fst (generateTopic h net title rawText nodeId)
  = ([], Some (0%Z, Resolved {| gr_node_id := sid |}))
  /\ neverRejects (settles (snd (generateTopic h net title rawText nodeId)))
  /\ snd (generateTopic h net title rawText nodeId)
     = match net (generateTopic_request sid title (rawText ?? JsString.empty)) with
       | None => ([], None)
       | Some (t, Rejected _) => ([LogGenerateTimedOut], Some (t, Resolved tt))
       | Some (t, Resolved res) =>
           match json res with
           | None => ([], None)
           | Some (t', Rejected _) =>
               ([LogGenerateTimedOut], Some ((t + t')%Z, Resolved tt))
           | Some (t', Resolved _) =>
               ([LogGenerateResponse], Some ((t + t')%Z, Resolved tt))
           end
       end
  /\ neverRejects (settles (ApiTs.generateTopic h net title rawText nodeId))
  /\ ApiTs.generateTopic h net title rawText nodeId
     = match net (ApiTs.generateTopic_request sid title (rawText ?? JsString.empty)) with
       | None => ([LogGenerateTimedOut], Some (5000%Z, Resolved {| gr_node_id := sid |}))
       | Some (t, r) =>
           if (t <=? 5000)%Z then
             match r with
             | Rejected _ =>
                 ([LogGenerateTimedOut], Some (t, Resolved {| gr_node_id := sid |}))
             | Resolved res =>
                 match json res with
                 | None => ([], None)
                 | Some (t', Rejected _) =>
                     ([LogGenerateTimedOut],
                      Some ((t + t')%Z, Resolved {| gr_node_id := sid |}))
                 | Some (t', Resolved _) =>
                     ([LogGenerateResponse],
                      Some ((t + t')%Z, Resolved {| gr_node_id := sid |}))
                 end
             end
           else ([LogGenerateTimedOut], Some (5000%Z, Resolved {| gr_node_id := sid |}))
       end.
Proof.
  intros B h net title rawText nodeId sid.
  assert (Hearlier :
    ApiTs.generateTopic h net title rawText nodeId
    = match net (ApiTs.generateTopic_request sid title (rawText ?? JsString.empty)) with
      | None => ([LogGenerateTimedOut], Some (5000%Z, Resolved {| gr_node_id := sid |}))
      | Some (t, r) =>
          if (t <=? 5000)%Z then
            match r with
            | Rejected _ =>
                ([LogGenerateTimedOut], Some (t, Resolved {| gr_node_id := sid |}))
            | Resolved res =>
                match json res with
                | None => ([], None)
                | Some (t', Rejected _) =>
                    ([LogGenerateTimedOut],
                     Some ((t + t')%Z, Resolved {| gr_node_id := sid |}))
                | Some (t', Resolved _) =>
                    ([LogGenerateResponse],
                     Some ((t + t')%Z, Resolved {| gr_node_id := sid |}))
                end
            end
          else ([LogGenerateTimedOut], Some (5000%Z, Resolved {| gr_node_id := sid |}))
      end).
  { unfold ApiTs.generateTopic, ApiTs.fetchWithAbort, fetch, race, rejectAfter.
    fold (submissionId h nodeId). change (submissionId h nodeId) with sid.
    destruct (net _) as [[t [res | e]]|]; [| |reflexivity].
    - destruct (t <=? 5000)%Z; [|reflexivity].
      unfold try_catch, bind, await. cbn [fst snd settles console].
      destruct (json res) as [[t' [data | e]]|]; cbn; now rewrite ?Z.add_0_r.
    - destruct (t <=? 5000)%Z; cbn; now rewrite ?Z.add_0_r. }
  split; [reflexivity|].
  split; [apply generateTopic_detached_neverRejects|].
  split.
  { cbn [generateTopic snd]. fold (submissionId h nodeId).
    change (submissionId h nodeId) with sid.
    generalize (generateTopic_detached_cases net
      (generateTopic_request sid title (rawText ?? JsString.empty))).
    destruct (net (generateTopic_request sid title (rawText ?? JsString.empty)))
      as [[t [res | e]]|]; [|now intros -> | now intros ->].
    destruct (json res) as [[t' [data | e]]|]; now intros ->. }
  split; [|exact Hearlier].
  rewrite Hearlier. clear Hearlier. intros t0 e0.
  destruct (net (ApiTs.generateTopic_request sid title (rawText ?? JsString.empty)))
    as [[t [res | e]]|]; [| |discriminate].
  - destruct (t <=? 5000)%Z; [|discriminate].
    destruct (json res) as [[t' [data | e]]|]; discriminate.
  - destruct (t <=? 5000)%Z; discriminate.
Qed.

Lemma generateTopic_returns_submission_id_witness :
  fst (generateTopic (epochHost 1000) (@failing Json 29000) (js "Creatine") None None)
  = ([], Some (0%Z, Resolved {| gr_node_id := js "node-1000" |}))
  /\ snd (generateTopic (epochHost 1000) (answering 300 20 JNull) (js "Creatine") None
            (Some (js "node-7")))
     = ([LogGenerateResponse], Some (320%Z, Resolved tt))
  /\ ApiTs.generateTopic (epochHost 1000) (@failing Json 29000) (js "Creatine") None
       (Some (js "node-7"))
     = ([LogGenerateTimedOut], Some (5000%Z, Resolved {| gr_node_id := js "node-7" |})).
Proof.
  split; [|split].
  - exact (proj1 (@generateTopic_returns_submission_id Json (epochHost 1000)
                    (failing 29000) (js "Creatine") None None)).
  - exact (proj1 (proj2 (proj2 (@generateTopic_returns_submission_id Json (epochHost 1000)
                    (answering 300 20 JNull) (js "Creatine") None (Some (js "node-7")))))).
  - exact (proj2 (proj2 (proj2 (proj2 (@generateTopic_returns_submission_id Json
                    (epochHost 1000) (failing 29000) (js "Creatine") None
                    (Some (js "node-7"))))))).
Defined.

(** ** Poll ticks *)

Lemma poll_waiting :
  forall (nodeId : jsstring) (elapsed : Z) (polled refreshed : list Topic) (st : AppState),
  (elapsed <= MAX_POLL_MS)%Z ->
  statusOf nodeId polled = generating ->
  poll nodeId elapsed polled refreshed st
  = (st, Again (if (elapsed <? 120000)%Z then 4000%Z else 8000%Z)).
Proof.
  intros nodeId elapsed polled refreshed st Hle Hgen. unfold poll.
  destruct (Z.gtb_spec elapsed MAX_POLL_MS) as [Hgt | _]; [lia|].
  now rewrite Hgen.
Qed.

Lemma poll_publishing :
  forall (nodeId : jsstring) (elapsed : Z) (polled refreshed : list Topic) (st : AppState),
  (elapsed > MAX_POLL_MS)%Z \/ statusOf nodeId polled = ready ->
  poll nodeId elapsed polled refreshed st
  = (publishRefreshed nodeId refreshed st, Finished).
Proof.
  intros nodeId elapsed polled refreshed st [Hgt | Hready]; unfold poll.
  - apply Z.gt_lt, Z.gtb_lt in Hgt. now rewrite Hgt.
  - rewrite Hready. now destruct (elapsed >? MAX_POLL_MS)%Z.
Qed.

Lemma publishRefreshed_eq :
  forall (nodeId : jsstring) (refreshed : list Topic) (st : AppState),
  publishRefreshed nodeId refreshed st
  = {| topics := refreshed;
       activeTopic := match findTopic nodeId refreshed with
                      | Some found => Some found
                      | None => activeTopic st
                      end;
       generatingTopicId := None |}.
Proof.
  intros nodeId refreshed st. unfold publishRefreshed.
  destruct (findTopic nodeId refreshed); reflexivity.
Qed.

Example retriedState_eq :
  retriedState = {| topics := [secondAttempt];
                    activeTopic := Some secondAttempt;
                    generatingTopicId := Some (js "node-200000") |}.
Proof. reflexivity. Qed.

(** C9, as stated, fails: a tick carries no check of authority.  The loop
    started for [node-1000] is superseded by the retry that created
    [node-200000]; when its deadline passes while the backend is out of
    reach (so that [getTopics] gave the empty list), its tick empties the
    topic list, the placeholder of the new attempt included, and clears the
    generating id that the new attempt owns. *)
Lemma stale_tick_overwrites_retry :
  generatingTopicId retriedState = Some (js "node-200000")
  /\ topics retriedState = [secondAttempt]
  /\ fst (poll (js "node-1000") 300001 [] [] retriedState)
     = {| topics := [];
          activeTopic := Some secondAttempt;
          generatingTopicId := None |}
  /\ fst (poll (js "node-1000") 300001 [] [] retriedState) <> retriedState.
Proof.
  repeat split; try reflexivity. discriminate.
Qed.

(** The same tick after the topic was deleted instead. *)
Example stale_tick_after_delete :
  fst (poll (js "node-1000") 300001 [] [secondAttempt]
         (handleDeleteTopic (Some firstAttempt) (js "node-1000") submittedState))
  = {| topics := [secondAttempt]; activeTopic := None; generatingTopicId := None |}.
Proof. reflexivity. Qed.

(** C9, amended. A poll tick has no guard on whether its loop is still the
    current one for its topic: what it does depends only on its own id, the
    elapsed time and the fetched lists, for every application state.  While
    its five minute deadline has not passed and the polled list does not
    report its id ready, the tick leaves the published state as it is and
    schedules the next one (after 4 s before two minutes have elapsed, 8 s
    from then on).  Once the deadline has passed, or its id is reported
    ready, it ends the loop and publishes: the topic list becomes the
    refreshed list, the generating id is cleared whoever set it, and the
    active topic becomes the entry of the refreshed list with its id when
    there is one, and is kept otherwise. *)
Theorem poll_tick_unguarded :
  forall (nodeId : jsstring) (elapsed : Z) (polled refreshed : list Topic) (st : AppState),
  ((elapsed <= 5 * 60 * 1000)%Z ->
   statusOf nodeId polled = generating ->
   poll nodeId elapsed polled refreshed st
   = (st, Again (if (elapsed <? 120000)%Z then 4000%Z else 8000%Z)))
  /\ ((elapsed > 5 * 60 * 1000)%Z \/ statusOf nodeId polled = ready ->
      poll nodeId elapsed polled refreshed st
      = ({| topics := refreshed;
            activeTopic := match findTopic nodeId refreshed with
                           | Some found => Some found
                           | None => activeTopic st
                           end;
            generatingTopicId := None |}, Finished)).
Proof.
  intros nodeId elapsed polled refreshed st. split.
  - apply poll_waiting.
  - intro H. rewrite <- publishRefreshed_eq. now apply poll_publishing.
Qed.

Lemma poll_tick_unguarded_witness :
  poll (js "node-1000") 119999 [] [] retriedState = (retriedState, Again 4000%Z)
  /\ poll (js "node-1000") 300001 [] [] retriedState
     = ({| topics := [];
           activeTopic := Some secondAttempt;
           generatingTopicId := None |}, Finished).
Proof.
  split.
  - apply (proj1 (poll_tick_unguarded (js "node-1000") 119999 [] [] retriedState));
      [discriminate | reflexivity].
  - apply (proj2 (poll_tick_unguarded (js "node-1000") 300001 [] [] retriedState)).
    left. reflexivity.
Defined.

(** ** Depth after the re-fetch *)

Lemma Forall_mapi_from :
  forall (A B : Type) (P : B -> Prop) (f : A -> nat -> B),
  (forall x i, P (f x i)) ->
  forall (l : list A) (i : nat), Forall P (mapi_from i f l).
Proof.
  intros A B P f Hf. induction l as [|x l IH]; intro i; simpl; constructor; auto.
Qed.

Lemma mapBackendTopic_depth_cards :
  forall (h : Host) (item : BackendTopicItem) (index : nat),
  depth (fst (mapBackendTopic h item index)) = intermediate
  /\ cards (fst (mapBackendTopic h item index)) = [].
Proof. intros. split; reflexivity. Qed.

Lemma mapTopics_depth_cards :
  forall (h : Host) (items : list BackendTopicItem),
  Forall (fun x => depth x = intermediate /\ cards x = []) (fst (mapTopics h items)).
Proof.
  intros h items. unfold mapTopics, mapi. simpl.
  rewrite map_mapi_from. apply Forall_mapi_from.
  intros x i. apply mapBackendTopic_depth_cards.
Qed.

(** Whatever [getTopics] resolves to is a list that [mapTopics] produced,
    or the empty fallback. *)
Lemma getTopics_resolved :
  forall (h : Host) (net : Network (FeedData BackendTopicItem)) (t : Z) (l : list Topic),
  settles (getTopics h net) = Some (t, Resolved l) ->
  l = [] \/ exists items, l = fst (mapTopics h items).
Proof.
  intros h net t l. unfold getTopics, fetchWithTimeout, fetch, race, rejectAfter.
  assert (Hfallback : forall (c : Console) (t0 : Z) (e : JsError),
            settles (try_catch (c, Some (t0, Rejected e))
                       (fun _ => log WarnGetTopicsFailed ;;; ret (@nil Topic)))
            = Some (t, Resolved l) -> l = [] \/ exists items, l = fst (mapTopics h items)).
  { intros c t0 e. simpl. intro Heq. injection Heq as _ <-. now left. }
  destruct (net getTopics_request) as [[t0 [res | e]]|]; simpl.
  - destruct (t0 <=? DEFAULT_TIMEOUT_MS)%Z; simpl.
    + destruct (json res) as [[t1 [data | e]]|]; simpl.
      * destruct data as [items | props |]; simpl.
        -- intro Heq. injection Heq as _ <-. right. now exists items.
        -- intro Heq. injection Heq as _ <-. right. eauto.
        -- intro Heq. injection Heq as _ <-. now left.
      * intro Heq. injection Heq as _ <-. now left.
      * discriminate.
    + intro Heq. injection Heq as _ <-. now left.
  - destruct (t0 <=? DEFAULT_TIMEOUT_MS)%Z; simpl;
      intro Heq; injection Heq as _ <-; now left.
  - intro Heq. injection Heq as _ <-. now left.
Qed.

Lemma findTopic_id :
  forall (nodeId : jsstring) (l : list Topic) (found : Topic),
  findTopic nodeId l = Some found -> id found = nodeId /\ In found l.
Proof.
  intros nodeId l found H. unfold findTopic in H.
  apply find_some in H. destruct H as [Hin Heq].
  apply eqb_eq in Heq. now split.
Qed.

(** C10. Every topic [mapBackendTopic] builds has depth [intermediate] and
    no cards, whatever the record, the position and the host; so has every
    topic of a list [getTopics] resolves to.  Hence, when a tick of the
    loop started by a submission with depth [d] publishes such a list (its
    id is reported ready, or its deadline has passed), the topic list holds
    only topics of depth [intermediate], and when the list has an entry
    with the submitted id, the active topic, until then the placeholder of
    depth [d], becomes that entry of depth [intermediate]. *)
Theorem refetch_discards_depth :
  forall (h h' : Host) (net : Network (FeedData BackendTopicItem))
         (title : jsstring) (d : Depth) (st0 : AppState)
         (elapsed t : Z) (polled refreshed : list Topic),
  settles (getTopics h' net) = Some (t, Resolved refreshed) ->
  (elapsed > MAX_POLL_MS)%Z \/ statusOf (snd (handleGenerate h title d st0)) polled = ready ->
  (forall item index,
     depth (fst (mapBackendTopic h' item index)) = intermediate
     /\ cards (fst (mapBackendTopic h' item index)) = [])
  /\ Forall (fun x => depth x = intermediate /\ cards x = []) refreshed
  /\ (exists p, activeTopic (fst (handleGenerate h title d st0)) = Some p
                /\ hd_error (topics (fst (handleGenerate h title d st0))) = Some p
                /\ id p = snd (handleGenerate h title d st0)
                /\ depth p = d)
  /\ topics (fst (poll (snd (handleGenerate h title d st0)) elapsed polled refreshed
                    (fst (handleGenerate h title d st0))))
     = refreshed
  /\ (forall found,
        findTopic (snd (handleGenerate h title d st0)) refreshed = Some found ->
        activeTopic (fst (poll (snd (handleGenerate h title d st0)) elapsed polled refreshed
                            (fst (handleGenerate h title d st0))))
        = Some found
        /\ id found = snd (handleGenerate h title d st0)
        /\ depth found = intermediate).
Proof.
  intros h h' net title d st0 elapsed t polled refreshed Hget Hpub.
  assert (Hall : Forall (fun x => depth x = intermediate /\ cards x = []) refreshed).
  { destruct (getTopics_resolved h' net Hget) as [-> | [items ->]];
      [constructor | apply mapTopics_depth_cards]. }
  split; [intros; apply mapBackendTopic_depth_cards|].
  split; [assumption|].
  split.
  { eexists. simpl. repeat split. }
  rewrite (poll_publishing _ _ _ _ Hpub), publishRefreshed_eq. cbn [fst topics activeTopic].
  split; [reflexivity|].
  intros found Hfound. rewrite Hfound.
  destruct (findTopic_id _ _ Hfound) as [Hid Hin].
  split; [reflexivity|]. split; [assumption|].
  rewrite Forall_forall in Hall. now apply Hall.
Qed.

Lemma refetch_discards_depth_witness :
  exists found : Topic,
    activeTopic submittedState = Some firstAttempt
    /\ depth firstAttempt = advanced
    /\ activeTopic (fst (poll (js "node-1000") 8000 
                           (fst (mapTopics (epochHost 9000)
                                   [sampleItem (Some (js "completed")) (Some 12%Z) (Some EPOCH)]))
                           (fst (mapTopics (epochHost 9000)
                                   [sampleItem (Some (js "completed")) (Some 12%Z) (Some EPOCH)]))
                           submittedState))
       = Some found
    /\ id found = js "node-1000"
    /\ status found = ready
    /\ cardCount found = 12%Z
    /\ depth found = intermediate.
Proof.
  destruct (@refetch_discards_depth (epochHost 1000) (epochHost 9000)
              (answering 100 10 completedFeed) (js "Creatine") advanced emptyState
              8000%Z 110%Z
              (fst (mapTopics (epochHost 9000)
                      [sampleItem (Some (js "completed")) (Some 12%Z) (Some EPOCH)]))
              (fst (mapTopics (epochHost 9000)
                      [sampleItem (Some (js "completed")) (Some 12%Z) (Some EPOCH)]))
              eq_refl (or_intror eq_refl))
    as [_ [_ [_ [_ Hactive]]]].
  eexists. split; [reflexivity|]. split; [reflexivity|].
  destruct (Hactive _ eq_refl) as [Ha [Hid Hdepth]].
  split; [exact Ha|]. split; [exact Hid|].
  split; [reflexivity|]. split; [reflexivity | exact Hdepth].
Defined.

(* ================================================================== *)
(** * Further properties *)

(** ** Printed numbers *)

Lemma lit_inj : forall s s' : string, JsString.lit s = JsString.lit s' -> s = s'.
Proof.
  induction s as [|a s IH]; destruct s' as [|b s']; simpl; intro H;
    try reflexivity; try discriminate.
  injection H as Hab Hss. f_equal; [|now apply IH].
  rewrite <- (ascii_N_embedding a), <- (ascii_N_embedding b). now rewrite Hab.
Qed.

Lemma ofIndex_inj : forall i j : nat, JsString.ofIndex i = JsString.ofIndex j -> i = j.
Proof.
  intros i j H. unfold JsString.ofIndex in H. apply lit_inj in H.
  apply DecimalNat.Unsigned.to_uint_inj.
  pose proof (NilEmpty.usu (Nat.to_uint i)) as Hi.
  rewrite H, NilEmpty.usu in Hi. congruence.
Qed.

Lemma to_int_proper : forall z : Z,
  Z.to_int z <> Decimal.Pos Decimal.Nil /\ Z.to_int z <> Decimal.Neg Decimal.Nil.
Proof.
  intros [|p|p]; simpl; split; try discriminate; intro H; injection H as H;
    now apply DecimalPos.Unsigned.to_uint_nonnil in H.
Qed.

Lemma ofNumber_inj : forall n m : Z, JsString.ofNumber n = JsString.ofNumber m -> n = m.
Proof.
  intros n m H. unfold JsString.ofNumber in H. apply lit_inj in H.
  apply DecimalZ.to_int_inj.
  destruct (to_int_proper n) as [Hn1 Hn2]. destruct (to_int_proper m) as [Hm1 Hm2].
  pose proof (NilZero.isi _ Hn1 Hn2) as Hi.
  rewrite H, (NilZero.isi _ Hm1 Hm2) in Hi. congruence.
Qed.

Lemma of_lu_agree : forall d : Decimal.uint,
  N.to_nat (DecimalPos.Unsigned.of_lu d) = DecimalNat.Unsigned.of_lu d.
Proof.
  induction d; cbn [DecimalNat.Unsigned.of_lu DecimalPos.Unsigned.of_lu];
    rewrite <- ?IHd; lia.
Qed.

Lemma to_uint_of_pos : forall p : positive, Nat.to_uint (Pos.to_nat p) = Pos.to_uint p.
Proof.
  intro p.
  assert (H : Nat.of_uint (Pos.to_uint p) = Pos.to_nat p).
  { rewrite DecimalNat.Unsigned.of_uint_alt, <- of_lu_agree,
      <- DecimalPos.Unsigned.of_uint_alt, DecimalPos.Unsigned.of_to. reflexivity. }
  rewrite <- H, DecimalNat.Unsigned.to_of.
  rewrite <- (DecimalPos.Unsigned.to_of (Pos.to_uint p)), DecimalPos.Unsigned.of_to.
  reflexivity.
Qed.

(** [String] prints an index as it prints the same number. *)
Lemma ofNumber_of_nat : forall i : nat, JsString.ofNumber (Z.of_nat i) = JsString.ofIndex i.
Proof.
  intros [|n]; [reflexivity|].
  unfold JsString.ofNumber, JsString.ofIndex. f_equal.
  rewrite <- (SuccNat2Pos.id_succ n) at 2. rewrite to_uint_of_pos. simpl.
  pose proof (DecimalPos.Unsigned.to_uint_nonnil (Pos.of_succ_nat n)) as Hnil.
  destruct (Pos.to_uint (Pos.of_succ_nat n)); [now elim Hnil | reflexivity ..].
Qed.

Lemma ofIndex_ofNumber : forall (i : nat) (z : Z),
  JsString.ofIndex i = JsString.ofNumber z <-> z = Z.of_nat i.
Proof.
  intros i z. rewrite <- ofNumber_of_nat. split.
  - intro H. symmetry. now apply ofNumber_inj.
  - now intros ->.
Qed.

(** ** The quiz card *)

Lemma mapi_option_ids : forall (l : list jsstring) (i : nat),
  map opt_id
    (mapi_from i (fun text k => {| opt_id := JsString.ofIndex k; opt_text := text |}) l)
  = map JsString.ofIndex (seq i (List.length l)).
Proof.
  induction l as [|x l IH]; intro i; simpl; [reflexivity|]. now rewrite IH.
Qed.

(** X1. The option ids of a mapped quiz card are pairwise distinct: they
    are the decimal numerals of 0, 1, ... in order, so an id names one
    option of the card. *)
Theorem quiz_option_ids_distinct : forall (alu : BackendALU) (q : QuizCardData),
  postType alu = Some (js "quiz") ->
  fst (mapALUToCard alu) = Some (QuizCard q) ->
  map opt_id (options q)
  = map JsString.ofIndex (seq 0 (List.length (choices (quiz alu ?? emptyQuiz) ?? [])))
  /\ NoDup (map opt_id (options q)).
Proof.
  intros alu q H Hq. rewrite (mapALUToCard_quiz_eq alu H) in Hq. simpl in Hq.
  injection Hq as <-. simpl. unfold mapi. rewrite mapi_option_ids.
  split; [reflexivity|].
  apply Finite.Injective_map_NoDup; [|apply seq_NoDup].
  intros i j. apply ofIndex_inj.
Qed.

Lemma quiz_option_ids_distinct_witness :
  exists q, fst (mapALUToCard quizALU) = Some (QuizCard q)
            /\ map opt_id (options q) = [js "0"; js "1"; js "2"]
            /\ NoDup (map opt_id (options q)).
Proof.
  eexists. split; [reflexivity|].
  destruct (@quiz_option_ids_distinct quizALU _ eq_refl eq_refl) as [Hids Hnodup].
  split; [exact Hids | exact Hnodup].
Defined.

(** X2. Tapping the option at position [i] of a mapped quiz card is judged
    correct exactly when [i] is the backend's [answer_index] (0 when
    absent).  So when [answer_index] is negative or not below the number
    of choices, every tap is judged wrong. *)
Theorem quiz_tap_correct_iff_answer_index :
  forall (alu : BackendALU) (q : QuizCardData) (i : nat) (o : QuizOption),
  postType alu = Some (js "quiz") ->
  fst (mapALUToCard alu) = Some (QuizCard q) ->
  nth_error (options q) i = Some o ->
  (QuizCardView.answerState
     (QuizCardView.handleSelect q (opt_id o) QuizCardView.initial)
   = QuizCardView.correct
   <-> answer_index (quiz alu ?? emptyQuiz) ?? 0%Z = Z.of_nat i)
  /\ ((answer_index (quiz alu ?? emptyQuiz) ?? 0 < 0)%Z
      \/ (Z.of_nat (List.length (options q))
          <= answer_index (quiz alu ?? emptyQuiz) ?? 0)%Z ->
      QuizCardView.answerState
        (QuizCardView.handleSelect q (opt_id o) QuizCardView.initial)
      = QuizCardView.wrong).
Proof.
  intros alu q i o H Hq Hnth.
  rewrite (mapALUToCard_quiz_eq alu H) in Hq. simpl in Hq. injection Hq as <-.
  simpl in Hnth. rewrite nth_error_mapi in Hnth.
  assert (Hlt : (i < List.length (choices (quiz alu ?? emptyQuiz) ?? []))%nat).
  { apply nth_error_Some. destruct (nth_error _ i); [discriminate | discriminate]. }
  destruct (nth_error (choices (quiz alu ?? emptyQuiz) ?? []) i) as [text|];
    [|discriminate].
  injection Hnth as <-. simpl.
  unfold QuizCardView.handleSelect. simpl.
  destruct (JsString.eqb (JsString.ofIndex i)
              (JsString.ofNumber (answer_index (quiz alu ?? emptyQuiz) ?? 0%Z))) eqn:E.
  - apply eqb_eq, ofIndex_ofNumber in E. split.
    + split; [now intros _ | reflexivity].
    + unfold mapi. rewrite length_mapi_from. intros [Hneg | Hbig]; lia.
  - split.
    + split; [discriminate|]. intro Hidx. apply eqb_neq in E.
      elim E. now apply ofIndex_ofNumber.
    + reflexivity.
Qed.

Lemma quiz_tap_correct_iff_answer_index_witness :
  QuizCardView.answerState
    (QuizCardView.handleSelect
       {| qc_id := js "alu-1"; question := js "Q?";
          options := [ {| opt_id := js "0"; opt_text := js "A" |};
                       {| opt_id := js "1"; opt_text := js "B" |};
                       {| opt_id := js "2"; opt_text := js "C" |} ];
          correctOptionId := js "1"; explanation := js "E" |}
       (js "1") QuizCardView.initial)
  = QuizCardView.correct.
Proof.
  apply (proj1 (@quiz_tap_correct_iff_answer_index quizALU _ 1%nat
                  {| opt_id := js "1"; opt_text := js "B" |}
                  eq_refl eq_refl eq_refl)).
  reflexivity.
Defined.

(** X3. The first tap on a quiz card decides it: the tapped id is
    selected, the answer is correct exactly when that id is the card's
    [correctOptionId], and no later taps change the state.  From then on
    the option with the correct id is shown as correct, the tapped one as
    wrong when it is another, and every other option dimmed. *)
Theorem quiz_first_tap_decides :
  forall (card : QuizCardData) (o : jsstring) (taps : list jsstring),
  let s := QuizCardView.handleSelect card o QuizCardView.initial in
  fold_left (fun st tap => QuizCardView.handleSelect card tap st) taps s = s
  /\ QuizCardView.selected s = Some o
  /\ (QuizCardView.answerState s = QuizCardView.correct <-> o = correctOptionId card)
  /\ (QuizCardView.answerState s = QuizCardView.wrong <-> o <> correctOptionId card)
  /\ (forall x,
        QuizCardView.getOptionStyle card s x =
          if JsString.eqb x (correctOptionId card) then QuizCardView.styleOptionCorrect
          else if JsString.eqb o x then QuizCardView.styleOptionWrong
          else QuizCardView.styleOptionDimmed).
Proof.
  intros card o taps s.
  assert (Hanswered : QuizCardView.answerState s <> QuizCardView.unanswered).
  { unfold s, QuizCardView.handleSelect. simpl.
    destruct (JsString.eqb o (correctOptionId card)); discriminate. }
  split.
  { induction taps as [|tap taps IH]; simpl; [reflexivity|].
    replace (QuizCardView.handleSelect card tap s) with s; [exact IH|].
    unfold QuizCardView.handleSelect at 1.
    destruct (QuizCardView.answerState s); [now elim Hanswered | reflexivity ..]. }
  split; [reflexivity|].
  unfold s, QuizCardView.handleSelect, QuizCardView.getOptionStyle,
    QuizCardView.isSelected. simpl.
  destruct (JsString.eqb o (correctOptionId card)) eqn:E; simpl.
  - apply eqb_eq in E. repeat split; try discriminate; try congruence.
  - apply eqb_neq in E. repeat split; try discriminate; try congruence.
Qed.

(** ** Palette and topic mapping *)

Lemma palette_nth_inj : forall (l : list jsstring) (i j : nat),
  NoDup l -> (i < List.length l)%nat -> (j < List.length l)%nat ->
  nth i l [] = nth j l [] -> i = j.
Proof.
  intros l i j Hnd Hi Hj H. now apply (proj1 (NoDup_nth l []) Hnd).
Qed.

Lemma TOPIC_COLORS_NoDup : NoDup TOPIC_COLORS.
Proof.
  unfold TOPIC_COLORS.
  repeat (constructor; [simpl; intuition discriminate|]). constructor.
Qed.

Lemma TOPIC_EMOJIS_NoDup : NoDup TOPIC_EMOJIS.
Proof.
  unfold TOPIC_EMOJIS.
  repeat (constructor; [simpl; intuition discriminate|]). constructor.
Qed.

(** X4. The colour and the emoji picked for a position are entries of the
    palettes, and two positions get the same colour (the same emoji)
    exactly when they are congruent modulo 8. *)
Theorem palette_by_position_mod_8 : forall i j : nat,
  In (pickColor i) TOPIC_COLORS
  /\ In (pickEmoji i) TOPIC_EMOJIS
  /\ (pickColor i = pickColor j <-> i mod 8 = j mod 8)
  /\ (pickEmoji i = pickEmoji j <-> i mod 8 = j mod 8).
Proof.
  intros i j. unfold pickColor, pickEmoji.
  change (List.length TOPIC_COLORS) with 8%nat.
  change (List.length TOPIC_EMOJIS) with 8%nat.
  assert (Hi : (i mod 8 < 8)%nat) by (apply Nat.mod_upper_bound; discriminate).
  assert (Hj : (j mod 8 < 8)%nat) by (apply Nat.mod_upper_bound; discriminate).
  split; [apply nth_In; exact Hi|].
  split; [apply nth_In; exact Hi|].
  split; split; intro H; try (now rewrite H).
  - apply (palette_nth_inj TOPIC_COLORS_NoDup); assumption.
  - apply (palette_nth_inj TOPIC_EMOJIS_NoDup); assumption.
Qed.

Lemma mapi_from_map : forall (A B : Type) (f : A -> B) (l : list A) (i : nat),
  mapi_from i (fun x _ => f x) l = map f l.
Proof.
  intros A B f. induction l as [|x l IH]; intro i; simpl; [reflexivity|].
  now rewrite IH.
Qed.

(** X5. [getTopics] maps the backend list position by position: the
    result has the length of the input, the ids are the backend's
    [node_id]s in the same order, the topic at position [k] is the image of
    the record at position [k] with index [k] (so its colour is the
    palette colour of [k]), and one line per record is logged. *)
Theorem mapTopics_positionwise : forall (h : Host) (items : list BackendTopicItem),
  List.length (fst (mapTopics h items)) = List.length items
  /\ map id (fst (mapTopics h items)) = map node_id items
  /\ (forall k, nth_error (fst (mapTopics h items)) k
                = option_map (fun item => fst (mapBackendTopic h item k))
                    (nth_error items k))
  /\ (forall k t, nth_error (fst (mapTopics h items)) k = Some t ->
                  color t = pickColor k)
  /\ snd (mapTopics h items)
     = map (fun item => LogTopic item (isStuckGenerating h item)) items.
Proof.
  intros h items. unfold mapTopics, mapi. cbn [fst snd].
  rewrite !map_mapi_from.
  split; [apply length_mapi_from|].
  split; [apply (mapi_from_map node_id)|].
  split; [intro k; now rewrite nth_error_mapi_from|].
  split.
  - intros k t. rewrite nth_error_mapi_from. simpl.
    destruct (nth_error items k); simpl; [|discriminate].
    intro Heq. injection Heq as <-. reflexivity.
  - cbn [mapBackendTopic snd].
    rewrite (mapi_from_map (fun item => [LogTopic item (isStuckGenerating h item)])).
    induction items as [|x items IH]; simpl; [reflexivity | now rewrite IH].
Qed.

(** X6. What [mapBackendTopic] builds is coherent: a topic flagged stuck is
    generating and has no positive card count; a ready topic is not flagged
    stuck; and the flag is always set, unlike on a placeholder. *)
Theorem mapBackendTopic_stuck_coherent :
  forall (h : Host) (item : BackendTopicItem) (index : nat),
  let t := fst (mapBackendTopic h item index) in
  (stuck t = Some true -> status t = generating /\ (cardCount t <= 0)%Z)
  /\ (status t = ready -> stuck t = Some false)
  /\ (exists b, stuck t = Some b)
  /\ (forall nodeId title color d, stuck (placeholderTopic nodeId title color d) = None).
Proof.
  intros h item index t. unfold t. cbn [mapBackendTopic fst stuck status cardCount].
  unfold isStuckGenerating.
  destruct (isReadyStatus (bt_status item)).
  - repeat split; try discriminate; eauto.
  - destruct (Z.gtb_spec (card_count item ?? 0%Z) 0%Z) as [Hpos | Hle].
    + repeat split; try discriminate; eauto.
    + repeat split; try discriminate; try assumption; eauto.
Qed.

Lemma mapBackendTopic_stuck_coherent_witness :
  status (fst (mapBackendTopic (epochHost 900000) (agedItem (Some 0%Z)) 0)) = generating
  /\ (cardCount (fst (mapBackendTopic (epochHost 900000) (agedItem (Some 0%Z)) 0)) <= 0)%Z.
Proof.
  apply (proj1 (mapBackendTopic_stuck_coherent (epochHost 900000) (agedItem (Some 0%Z)) 0)).
  reflexivity.
Defined.

(** X7. Being stuck is monotone in the clock: a record that is stuck at one
    reading of the clock is stuck at every later reading, as long as the
    record itself does not change. *)
Theorem isStuckGenerating_monotone :
  forall (h : Host) (item : BackendTopicItem) (later : Z),
  isStuckGenerating h item = true ->
  (Date_now h <= later)%Z ->
  isStuckGenerating (atClock later h) item = true.
Proof.
  intros h item later Hstuck Hlater. unfold isStuckGenerating in *.
  destruct (isReadyStatus (bt_status item)); [discriminate|].
  destruct (card_count item ?? 0%Z >? 0)%Z; [discriminate|].
  destruct (created_at item) as [created|]; [|discriminate].
  destruct (negb (JsString.truthy created)); [discriminate|].
  cbn [atClock Date_parse Date_now].
  destruct (Date_parse h created) as [createdMs|]; [|discriminate].
  apply Z.gtb_lt in Hstuck. apply Z.gtb_lt. lia.
Qed.

Lemma isStuckGenerating_monotone_witness :
  isStuckGenerating (atClock 86400000 (epochHost 900000)) (agedItem (Some 0%Z)) = true.
Proof.
  apply (@isStuckGenerating_monotone (epochHost 900000) (agedItem (Some 0%Z)) 86400000%Z);
    [reflexivity | discriminate].
Defined.

(** X8. The classifier sees neither white space around a status nor the
    case of its ASCII letters: two statuses with the same lowercased form,
    one of them padded with any white space, are classified alike. *)
Theorem isReadyStatus_padding_and_case :
  forall pre s s' post : jsstring,
  allWhiteSpace pre -> allWhiteSpace post ->
  JsString.toLowerCase s = JsString.toLowerCase s' ->
  isReadyStatus (Some (pre ++ s ++ post)) = isReadyStatus (Some s').
Proof.
  intros pre s s' post Hpre Hpost Hcase.
  rewrite (isReadyStatus_ignores_padding s Hpre Hpost).
  now apply isReadyStatus_ignores_case.
Qed.

Lemma isReadyStatus_padding_and_case_witness :
  isReadyStatus (Some ([0x9; 0x20]%N ++ js "Finished" ++ [0xD; 0xA]%N))
  = isReadyStatus (Some (js "FINISHED")).
Proof.
  apply isReadyStatus_padding_and_case.
  - repeat constructor.
  - repeat constructor.
  - reflexivity.
Defined.

(** X9. The two gateways classify every status alike, except those whose
    lowercased, trimmed form is [images_pending], which only the current
    one takes as ready. *)
Theorem isReadyStatus_gateways_differ_on_images_pending :
  forall status : option jsstring,
  (ApiTs.isReadyStatus status = true -> isReadyStatus status = true)
  /\ (isReadyStatus status <> ApiTs.isReadyStatus status <->
      exists s, status = Some s /\ normalized s = js "images_pending").
Proof.
  intros [s|].
  - rewrite isReadyStatus_Some, ApiTs_isReadyStatus_Some.
    unfold READY_STATUSES, ApiTs.READY_STATUSES, JsString.includes.
    cbn [existsb].
    destruct (JsString.eqb (normalized s) (js "images_pending")) eqn:E.
    + apply eqb_eq in E. rewrite E. split; [reflexivity|].
      split; [intros _; now exists s | intros _; discriminate].
    + rewrite !orb_false_r. split; [now intros ->|].
      split; [intro H; now elim H|].
      intros [s' [Heq Hn]]. injection Heq as <-. apply eqb_neq in E. now elim E.
  - split; [discriminate|]. split; [intro H; now elim H|].
    intros [s [Heq _]]. discriminate.
Qed.

(** ** Card mapping *)

Lemma is_case_true : forall (tag : string) (v : option jsstring),
  is_case tag v = true <-> v = Some (js tag).
Proof.
  intros tag [s|]; simpl; [|split; discriminate].
  rewrite eqb_eq. split; [now intros -> | now intros [= ->]].
Qed.

Lemma knownType_cases : forall alu : BackendALU,
  knownType alu = true <->
  postType alu = Some (js "image") \/ postType alu = Some (js "quiz")
  \/ postType alu = Some (js "flashcard").
Proof.
  intro alu. unfold knownType. rewrite !orb_true_iff, !is_case_true. tauto.
Qed.

Lemma knownType_false : forall alu : BackendALU,
  knownType alu = false ->
  mapALUToCard alu = (None, [WarnUnknownCardType (postType alu)]).
Proof.
  intros alu H. unfold knownType in H. apply orb_false_iff in H.
  destruct H as [H Hf]. apply orb_false_iff in H. destruct H as [Hi Hq].
  unfold mapALUToCard. now rewrite Hi, Hq, Hf.
Qed.

Lemma knownType_true : forall alu : BackendALU,
  knownType alu = true ->
  exists c, mapALUToCard alu = (Some c, []) /\ cardId c = alu_id alu.
Proof.
  intros alu H. apply knownType_cases in H. destruct H as [H | [H | H]].
  - eexists. split; [apply (mapALUToCard_image_eq alu H) | reflexivity].
  - eexists. split; [apply (mapALUToCard_quiz_eq alu H) | reflexivity].
  - eexists. split; [apply (mapALUToCard_flashcard_eq alu H) | reflexivity].
Qed.

(** X10. [post_type] outranks [card_type]: a record that has a [post_type]
    maps to the same result whatever its [card_type] holds, and a record
    without one is mapped by its [card_type].  A card that comes out keeps
    the record's [alu_id], and its variant is the one the discriminator
    names. *)
Theorem mapALUToCard_discriminator :
  forall (alu : BackendALU) (other : option jsstring),
  (forall p, post_type alu = Some p ->
             mapALUToCard (withCardType other alu) = mapALUToCard alu)
  /\ (post_type alu = None -> postType alu = card_type alu)
  /\ (forall c, fst (mapALUToCard alu) = Some c ->
        cardId c = alu_id alu
        /\ match c with
           | ImageCard _ => postType alu = Some (js "image")
           | QuizCard _ => postType alu = Some (js "quiz")
           | FlashCard _ => postType alu = Some (js "flashcard")
           end).
Proof.
  intros alu other. split; [|split].
  - intros p Hp. unfold mapALUToCard, postType. cbn [withCardType post_type card_type
      alu_id image_url alu_caption micro_explanation alu_hook alu_credit quiz
      alu_question alu_explanation alu_front alu_back flashcard alu_hint].
    rewrite Hp. reflexivity.
  - intro Hnone. unfold postType. now rewrite Hnone.
  - intros c Hc. destruct (knownType alu) eqn:Hk.
    + apply knownType_cases in Hk. destruct Hk as [H | [H | H]].
      * rewrite (mapALUToCard_image_eq alu H) in Hc. injection Hc as <-. now split.
      * rewrite (mapALUToCard_quiz_eq alu H) in Hc. injection Hc as <-. now split.
      * rewrite (mapALUToCard_flashcard_eq alu H) in Hc. injection Hc as <-. now split.
    + rewrite (knownType_false alu Hk) in Hc. discriminate.
Qed.

Lemma mapALUToCard_discriminator_witness :
  mapALUToCard (withCardType (Some (js "quiz")) videoALU) = mapALUToCard videoALU.
Proof.
  exact (proj1 (mapALUToCard_discriminator videoALU (Some (js "quiz")))
           (js "video") eq_refl).
Defined.

(** X11. A batch of card records maps to the cards of its records with a
    known discriminator, in order: their ids are the [alu_id]s of those
    records; each other record leaves one warning; so cards and warnings
    together are as many as the records. *)
Theorem mapCards_ids_and_warnings : forall alus : list BackendALU,
  map cardId (fst (mapCards alus)) = map alu_id (filter knownType alus)
  /\ snd (mapCards alus)
     = map (fun alu => WarnUnknownCardType (postType alu))
         (filter (fun alu => negb (knownType alu)) alus)
  /\ (List.length (fst (mapCards alus)) + List.length (snd (mapCards alus))
      = List.length alus)%nat.
Proof.
  induction alus as [|alu alus [IHc [IHw IHn]]]; [repeat split|].
  rewrite mapCards_cons. cbn [fst snd filter].
  destruct (knownType alu) eqn:Hk; cbn [negb].
  - destruct (knownType_true alu Hk) as [c [Hc Hid]]. rewrite Hc. cbn [fst snd].
    cbn [map List.length app].
    split; [now rewrite IHc, Hid|]. split; [assumption | lia].
  - rewrite (knownType_false alu Hk). cbn [fst snd map List.length app].
    split; [assumption|]. split; [now rewrite IHw | lia].
Qed.

(** ** The awaited calls, answered in time *)

Lemma feedItems_payloadItems :
  forall (A : Type) (names : list jsstring) (data : FeedData A),
  feedItems names data
  = match payloadItems names data with
    | Some items => ret items
    | None => throw TypeError
    end.
Proof. intros A names [items | props |]; reflexivity. Qed.

(** X12. When the response to a read arrives within the 15 seconds, the
    call ends when the body is read, [t'] after the response: with the
    mapped items of the body (the array itself, or the first present of
    the wrapper keys, or nothing at all when the object has none of them)
    if it parses; with the empty list and a warning if the body is [null]
    or does not parse; and never, without any warning, if the body is
    never read to its end. *)
Theorem reads_answered_in_time :
  forall (h : Host) (netT : Network (FeedData BackendTopicItem))
         (netC : Network (FeedData BackendALU)) (nodeId : jsstring) (t : Z)
         (resT : Response (FeedData BackendTopicItem))
         (resC : Response (FeedData BackendALU)),
  (t <= 15000)%Z ->
  (netT getTopics_request = Some (t, Resolved resT) ->
   getTopics h netT =
     match json resT with
     | None => ([], None)
     | Some (t', Rejected _) => ([WarnGetTopicsFailed], Some ((t + t')%Z, Resolved []))
     | Some (t', Resolved data) =>
         match payloadItems [js "topics"; js "nodes"; js "items"; js "feed"] data with
         | Some items =>
             (LogGetTopicsRaw :: LogGetTopicsParsed (List.length items)
                :: snd (mapTopics h items),
              Some ((t + t')%Z, Resolved (fst (mapTopics h items))))
         | None =>
             ([LogGetTopicsRaw; WarnGetTopicsFailed], Some ((t + t')%Z, Resolved []))
         end
     end)
  /\ (netC (getCards_request nodeId) = Some (t, Resolved resC) ->
      getCards netC nodeId =
        match json resC with
        | None => ([], None)
        | Some (t', Rejected _) => ([WarnGetCardsFailed], Some ((t + t')%Z, Resolved []))
        | Some (t', Resolved data) =>
            match payloadItems [js "cards"; js "alus"; js "items"] data with
            | Some alus =>
                (snd (mapCards alus), Some ((t + t')%Z, Resolved (fst (mapCards alus))))
            | None => ([WarnGetCardsFailed], Some ((t + t')%Z, Resolved []))
            end
        end).
Proof.
  intros h netT netC nodeId t resT resC Ht. apply Z.leb_le in Ht. split.
  - intro Hnet. unfold getTopics, fetchWithTimeout, fetch, race, rejectAfter.
    rewrite Hnet. unfold DEFAULT_TIMEOUT_MS. rewrite Ht.
    unfold try_catch, bind, await. cbn [fst snd settles console].
    destruct (json resT) as [[t' [data | e]]|]; [| |reflexivity].
    + destruct data as [items | props |]; cbn; now rewrite ?Z.add_0_r.
    + cbn. now rewrite Z.add_0_r.
  - intro Hnet. unfold getCards, fetchWithTimeout, fetch, race, rejectAfter.
    rewrite Hnet. unfold DEFAULT_TIMEOUT_MS. rewrite Ht.
    unfold try_catch, bind, await. cbn [fst snd settles console].
    destruct (json resC) as [[t' [data | e]]|]; [| |reflexivity].
    + destruct data as [items | props |]; cbn; now rewrite ?Z.add_0_r.
    + cbn. now rewrite Z.add_0_r.
Qed.

Lemma reads_answered_in_time_witness :
  getTopics (epochHost 9000) (answering 100 10 completedFeed)
  = ([LogGetTopicsRaw; LogGetTopicsParsed 1;
      LogTopic (sampleItem (Some (js "completed")) (Some 12%Z) (Some EPOCH)) false],
     Some (110%Z,
           Resolved (fst (mapTopics (epochHost 9000)
                            [sampleItem (Some (js "completed")) (Some 12%Z) (Some EPOCH)])))).
Proof.
  refine (proj1 (@reads_answered_in_time (epochHost 9000) (answering 100 10 completedFeed)
                   silent (js "node-1000") 100%Z
                   {| json := Some (10%Z, Resolved completedFeed) |}
                   {| json := None |} _) eq_refl).
  discriminate.
Defined.

(** X13. When the response to a write arrives within the 15 seconds,
    [markLearnt] and [deleteTopic] resolve to the parsed body itself, with
    nothing logged; to the empty object, with a warning, when the body does
    not parse; and stay pending while the body is not read to its end. *)
Theorem writes_answered_in_time :
  forall (net : Network Json) (aluId nodeId : jsstring) (t : Z) (res : Response Json),
  (t <= 15000)%Z ->
  (net (markLearnt_request aluId nodeId) = Some (t, Resolved res) ->
   markLearnt net aluId nodeId =
     match json res with
     | None => ([], None)
     | Some (t', Rejected _) =>
         ([WarnMarkLearntFailed], Some ((t + t')%Z, Resolved (JObject [])))
     | Some (t', Resolved v) => ([], Some ((t + t')%Z, Resolved v))
     end)
  /\ (net (deleteTopic_request nodeId) = Some (t, Resolved res) ->
      deleteTopic net nodeId =
        match json res with
        | None => ([], None)
        | Some (t', Rejected _) =>
            ([WarnDeleteTopicFailed], Some ((t + t')%Z, Resolved (JObject [])))
        | Some (t', Resolved v) => ([], Some ((t + t')%Z, Resolved v))
        end).
Proof.
  intros net aluId nodeId t res Ht. apply Z.leb_le in Ht. split.
  - intro Hnet. unfold markLearnt, fetchWithTimeout, fetch, race, rejectAfter.
    rewrite Hnet. unfold DEFAULT_TIMEOUT_MS. rewrite Ht.
    unfold try_catch, bind, await, ret, log, settles, console, delay. simpl.
    destruct (json res) as [[t' [v | e]]|]; simpl; now rewrite ?Z.add_0_r.
  - intro Hnet. unfold deleteTopic, fetchWithTimeout, fetch, race, rejectAfter.
    rewrite Hnet. unfold DEFAULT_TIMEOUT_MS. rewrite Ht.
    unfold try_catch, bind, await, ret, log, settles, console, delay. simpl.
    destruct (json res) as [[t' [v | e]]|]; simpl; now rewrite ?Z.add_0_r.
Qed.

Lemma writes_answered_in_time_witness :
  deleteTopic (answering 80 4 (JObject [(js "deleted", JBool true)])) (js "node-1000")
  = ([], Some (84%Z, Resolved (JObject [(js "deleted", JBool true)]))).
Proof.
  refine (proj2 (@writes_answered_in_time
                   (answering 80 4 (JObject [(js "deleted", JBool true)]))
                   (js "alu-1") (js "node-1000") 80%Z
                   {| json := Some (4%Z, Resolved (JObject [(js "deleted", JBool true)])) |}
                   _) eq_refl).
  discriminate.
Defined.

(** ** Time bounds of the awaited calls *)

Lemma fetchWithTimeout_resolved_inv :
  forall (B : Type) (net : Network B) (req : Request) (ms t : Z) (res : Response B),
  fetchWithTimeout net req ms = Some (t, Resolved res) ->
  net req = Some (t, Resolved res) /\ (t <= ms)%Z.
Proof.
  intros B net req ms t res. unfold fetchWithTimeout, fetch, race, rejectAfter.
  destruct (net req) as [[t0 r]|]; [|discriminate].
  destruct (Z.leb_spec t0 ms) as [Hle | Hgt]; [|discriminate].
  intro H. injection H as -> ->. now split.
Qed.

Lemma try_catch_await_resolved :
  forall (B A : Type) (t : Z) (res : Response B) (k : Response B -> Async A)
         (handler : JsError -> Async A),
  settles (try_catch (r <- await (Some (t, Resolved res)) ;; k r) handler)
  = delay t (settles (try_catch (k res) handler)).
Proof.
  intros B A t res k handler. unfold try_catch, bind, await. cbn [fst snd settles console].
  destruct (k res) as [c [[t' [a | e]]|]]; cbn; [reflexivity | | reflexivity].
  destruct (handler e) as [c' [[t'' r]|]]; cbn; [|reflexivity].
  now rewrite Z.add_assoc.
Qed.

Lemma settlesWithin_delay :
  forall (A : Type) (p : Promise A) (t ms b : Z),
  (t <= ms)%Z -> settlesWithin b p -> settlesWithin (ms + b) (delay t p).
Proof.
  intros A p t ms b Ht [t' [r [-> Hb]]]. exists (t + t')%Z, r.
  split; [reflexivity | lia].
Qed.

(** A call of the shape of the four awaited calls settles within the
    timeout plus the bound of what follows the response. *)
Lemma awaited_call_settlesWithin :
  forall (B A : Type) (net : Network B) (req : Request) (ms b : Z)
         (k : Response B -> Async A) (w : ConsoleEvent) (d : A),
  (0 <= b)%Z ->
  (forall t res, net req = Some (t, Resolved res) -> (t <= ms)%Z ->
                 settlesWithin b (settles (try_catch (k res) (fun _ => log w ;;; ret d)))) ->
  settlesWithin (ms + b)
    (settles (try_catch (res <- await (fetchWithTimeout net req ms) ;; k res)
                (fun _ => log w ;;; ret d))).
Proof.
  intros B A net req ms b k w d Hb Hk.
  destruct (fetchWithTimeout_bounded net req ms) as [t [r [Hp Ht]]].
  rewrite Hp. destruct r as [res | e].
  - rewrite try_catch_await_resolved. apply settlesWithin_delay; [assumption|].
    pose proof Hp as Hinv. apply fetchWithTimeout_resolved_inv in Hinv.
    destruct Hinv as [Hnet Hle].
    now apply (Hk t res).
  - rewrite (awaited_call_rejected k w d (eq_refl (Some (t, Rejected e)))).
    exists t, (Resolved d). split; [reflexivity | lia].
Qed.

Lemma body_then_sync_settlesWithin :
  forall (D A : Type) (p : Promise D) (k : D -> Async A) (w : ConsoleEvent) (d : A) (b : Z),
  settlesWithin b p ->
  (forall data, exists r, settles (try_catch (k data) (fun _ => log w ;;; ret d))
                          = Some (0%Z, r)) ->
  settlesWithin b (settles (try_catch (data <- await p ;; k data) (fun _ => log w ;;; ret d))).
Proof.
  intros D A p k w d b [t [r [-> Hb]]] Hk. unfold try_catch, bind, await.
  cbn [fst snd settles console]. destruct r as [data | e].
  - destruct (Hk data) as [r Hr]. unfold try_catch in Hr.
    destruct (k data) as [c [[t' [a | e]]|]]; cbn in *.
    + injection Hr as -> _. exists (t + 0)%Z, (Resolved a). split; [reflexivity | lia].
    + injection Hr as Hr _. exists (t + t' + (0 + 0))%Z, (Resolved d).
      split; [reflexivity | lia].
    + discriminate.
  - cbn. exists (t + (0 + 0))%Z, (Resolved d). split; [reflexivity | lia].
Qed.

(** X14. Each of the four awaited calls settles within the 15 seconds of
    its timer plus the time the body of an in-time response takes to be
    read: if every such body is read within [b], the call settles within
    [15000 + b]. *)
Theorem awaited_calls_settle_within :
  forall (h : Host) (netT : Network (FeedData BackendTopicItem))
         (netC : Network (FeedData BackendALU)) (netJ : Network Json)
         (aluId nodeId : jsstring) (b : Z),
  (0 <= b)%Z ->
  ((forall t res, netT getTopics_request = Some (t, Resolved res) -> (t <= 15000)%Z ->
                  settlesWithin b (json res)) ->
   settlesWithin (15000 + b) (settles (getTopics h netT)))
  /\ ((forall t res, netC (getCards_request nodeId) = Some (t, Resolved res) ->
                     (t <= 15000)%Z -> settlesWithin b (json res)) ->
      settlesWithin (15000 + b) (settles (getCards netC nodeId)))
  /\ ((forall t res, netJ (markLearnt_request aluId nodeId) = Some (t, Resolved res) ->
                     (t <= 15000)%Z -> settlesWithin b (json res)) ->
      settlesWithin (15000 + b) (settles (markLearnt netJ aluId nodeId)))
  /\ ((forall t res, netJ (deleteTopic_request nodeId) = Some (t, Resolved res) ->
                     (t <= 15000)%Z -> settlesWithin b (json res)) ->
      settlesWithin (15000 + b) (settles (deleteTopic netJ nodeId))).
Proof.
  intros h netT netC netJ aluId nodeId b Hb.
  repeat match goal with |- _ /\ _ => split end; intro Hbody.
  - unfold getTopics. apply awaited_call_settlesWithin; [assumption|].
    intros t res Hnet Ht. apply body_then_sync_settlesWithin; [now apply (Hbody t)|].
    intros [items | props |]; eexists; cbn; reflexivity.
  - unfold getCards. apply awaited_call_settlesWithin; [assumption|].
    intros t res Hnet Ht. apply body_then_sync_settlesWithin; [now apply (Hbody t)|].
    intros [items | props |]; eexists; cbn; reflexivity.
  - unfold markLearnt. apply awaited_call_settlesWithin; [assumption|].
    intros t res Hnet Ht. destruct (Hbody t res Hnet Ht) as [t' [r [Hr Hle]]].
    rewrite Hr. destruct r as [v | e]; cbn.
    + exists t', (Resolved v). now split.
    + exists (t' + (0 + 0))%Z, (Resolved emptyObject). split; [reflexivity | lia].
  - unfold deleteTopic. apply awaited_call_settlesWithin; [assumption|].
    intros t res Hnet Ht. destruct (Hbody t res Hnet Ht) as [t' [r [Hr Hle]]].
    rewrite Hr. destruct r as [v | e]; cbn.
    + exists t', (Resolved v). now split.
    + exists (t' + (0 + 0))%Z, (Resolved emptyObject). split; [reflexivity | lia].
Qed.

Lemma awaited_calls_settle_within_witness :
  settlesWithin (15000 + 10) (settles (getTopics (epochHost 9000)
                                         (answering 100 10 completedFeed))).
Proof.
  apply (proj1 (@awaited_calls_settle_within (epochHost 9000)
                  (answering 100 10 completedFeed) silent silent
                  (js "alu-1") (js "node-1000") 10%Z ltac:(discriminate))).
  intros t res Hnet _. injection Hnet as _ <-.
  exists 10%Z, (Resolved completedFeed). split; [reflexivity | discriminate].
Defined.

(** ** Polling the status *)




(** ** Submission ids and the generate request *)

Lemma freshNodeId_inj : forall h h' : Host,
  freshNodeId h = freshNodeId h' -> Date_now h = Date_now h'.
Proof.
  intros h h' H. unfold freshNodeId in H. apply app_inv_head in H.
  now apply ofNumber_inj.
Qed.

(** X16. A generated id is [node-] followed by the clock reading, in the
    gateway, in a submission and in a retry alike; so two of them are the
    same exactly when they were made at the same millisecond, and none is
    the empty string.  An id handed to the gateway is used as it is. *)
Theorem submission_ids_follow_the_clock :
  forall (h h' : Host) (given name : jsstring) (d : Depth) (st : AppState)
         (topic : Topic),
  (freshNodeId h = freshNodeId h' <-> Date_now h = Date_now h')
  /\ submissionId h None = freshNodeId h
  /\ submissionId h (Some given) = given
  /\ JsString.truthy (freshNodeId h) = true
  /\ snd (handleGenerate h name d st) = freshNodeId h
  /\ snd (handleRetryTopic h topic st) = freshNodeId h.
Proof.
  intros h h' given name d st topic. split; [split|].
  - apply freshNodeId_inj.
  - intro H. unfold freshNodeId. now rewrite H.
  - repeat split.
Qed.

(** X17. The request [generateTopic] sends carries the very id it
    returns, the title as given, and a [raw_text] that is never empty: the
    given text, or ["Tell me about <title>"] when none or an empty one was
    given. *)
Theorem generateTopic_request_body :
  forall (B : Type) (h : Host) (net : Network B) (title : jsstring)
         (rawText nodeId : option jsstring),
  let req := generateTopic_request (submissionId h nodeId) title
               (rawText ?? JsString.empty) in
  snd (generateTopic h net title rawText nodeId) = generateTopic_detached net req
  /\ settles (fst (generateTopic h net title rawText nodeId))
     = Some (0%Z, Resolved {| gr_node_id := submissionId h nodeId |})
  /\ url req = GENERATE_URL /\ method req = POST
  /\ bodyField req "user_id" = Some (js "u1")
  /\ bodyField req "node_id" = Some (submissionId h nodeId)
  /\ bodyField req "title" = Some title
  /\ (exists raw, bodyField req "raw_text" = Some raw
                  /\ raw <> JsString.empty
                  /\ (forall given, rawText = Some given -> given <> JsString.empty ->
                                    raw = given)
                  /\ (rawText = None \/ rawText = Some JsString.empty ->
                      raw = js "Tell me about " ++ title)).
Proof.
  intros B h net title rawText nodeId req.
  repeat match goal with |- _ /\ _ => split end; try reflexivity.
  unfold req, bodyField, generateTopic_request. cbn [body getProp].
  change (JsString.eqb (js "user_id") (js "raw_text")) with false.
  change (JsString.eqb (js "node_id") (js "raw_text")) with false.
  change (JsString.eqb (js "title") (js "raw_text")) with false.
  change (JsString.eqb (js "raw_text") (js "raw_text")) with true.
  cbv iota. eexists. split; [reflexivity|].
  destruct rawText as [[|c given]|]; cbn.
  - repeat split; try discriminate.
    intros g Hg Hne. injection Hg as <-. now elim Hne.
  - repeat split; try discriminate.
    + intros g Hg _. now injection Hg as <-.
    + intros [Hn | Hn]; discriminate.
  - repeat split; try discriminate.
Qed.

(** ** The handlers of the shell *)

Lemma freshNodeId_truthy : forall h : Host, JsString.truthy (freshNodeId h) = true.
Proof. reflexivity. Qed.

Lemma isGenerating_publishPlaceholder : forall (p : Topic) (st : AppState),
  JsString.truthy (id p) = true -> isGenerating (publishPlaceholder p st) = true.
Proof.
  intros p st Hid. unfold isGenerating, publishPlaceholder. cbn.
  now rewrite Hid, eqb_refl.
Qed.

Lemma findTopic_filter_out : forall (nodeId : jsstring) (l : list Topic),
  findTopic nodeId (filter (fun t => negb (JsString.eqb (id t) nodeId)) l) = None.
Proof.
  intros nodeId. induction l as [|t l IH]; [reflexivity|].
  cbn [filter]. destruct (JsString.eqb (id t) nodeId) eqn:E; cbn [negb]; [exact IH|].
  unfold findTopic in *. cbn [find]. now rewrite E.
Qed.

Lemma filter_out_keeps : forall (nodeId : jsstring) (l : list Topic) (t : Topic),
  In t l -> id t <> nodeId ->
  In t (filter (fun t => negb (JsString.eqb (id t) nodeId)) l).
Proof.
  intros nodeId l t Hin Hne. apply filter_In. split; [assumption|].
  apply eqb_neq in Hne. now rewrite Hne.
Qed.

(** X18. A submission puts its placeholder in front of the topic list and
    leaves the topics that were there as they were, in order; the
    placeholder carries the fresh id, the chosen title and depth, is
    generating and has no cards; it becomes the active topic, and the
    generating overlay is shown for it. *)
Theorem handleGenerate_prepends_placeholder :
  forall (h : Host) (name : jsstring) (d : Depth) (st : AppState),
  exists p : Topic,
    topics (fst (handleGenerate h name d st)) = p :: topics st
    /\ activeTopic (fst (handleGenerate h name d st)) = Some p
    /\ generatingTopicId (fst (handleGenerate h name d st)) = Some (id p)
    /\ id p = snd (handleGenerate h name d st)
    /\ id p = freshNodeId h
    /\ title p = name /\ depth p = d
    /\ status p = generating /\ cards p = [] /\ cardCount p = 0%Z
    /\ isGenerating (fst (handleGenerate h name d st)) = true.
Proof.
  intros h name d st. eexists. repeat split.
  unfold handleGenerate. cbn [fst]. now apply isGenerating_publishPlaceholder.
Qed.

(** X19. A retry removes every topic with the old id from the list, keeps
    the other topics in order, and puts in front a placeholder with a fresh
    id that carries over the title, the colour and the depth of the retried
    topic and is shown as generating.  The fresh id differs from the old one
    whenever the old one was generated at another reading of the clock; the
    list then holds no topic with the old id. *)
Theorem handleRetryTopic_replaces_topic :
  forall (h : Host) (topic : Topic) (st : AppState),
  exists p : Topic,
    topics (fst (handleRetryTopic h topic st))
    = p :: filter (fun t => negb (JsString.eqb (id t) (id topic))) (topics st)
    /\ (forall t, In t (topics st) -> id t <> id topic ->
                  In t (topics (fst (handleRetryTopic h topic st))))
    /\ id p = freshNodeId h /\ id p = snd (handleRetryTopic h topic st)
    /\ title p = title topic /\ color p = color topic /\ depth p = depth topic
    /\ status p = generating /\ cards p = []
    /\ activeTopic (fst (handleRetryTopic h topic st)) = Some p
    /\ isGenerating (fst (handleRetryTopic h topic st)) = true
    /\ (forall h0, id topic = freshNodeId h0 -> Date_now h0 <> Date_now h ->
          id p <> id topic
          /\ findTopic (id topic) (topics (fst (handleRetryTopic h topic st))) = None).
Proof.
  intros h topic st. eexists. split; [reflexivity|].
  split.
  { intros t Hin Hne. cbn. right. now apply filter_out_keeps. }
  do 8 (split; [reflexivity|]).
  split.
  { unfold handleRetryTopic. cbn [fst]. now apply isGenerating_publishPlaceholder. }
  intros h0 Hold Hclock.
  assert (Hne : freshNodeId h <> id topic).
  { intro Heq. apply Hclock. symmetry. apply freshNodeId_inj. congruence. }
  split; [exact Hne|].
  change (topics (fst (handleRetryTopic h topic st)))
    with (placeholderTopic (freshNodeId h) (title topic) (color topic) (depth topic)
          :: filter (fun t => negb (JsString.eqb (id t) (id topic))) (topics st)).
  unfold findTopic. cbn [find id placeholderTopic].
  apply eqb_neq in Hne. rewrite Hne. apply findTopic_filter_out.
Qed.

Lemma handleRetryTopic_replaces_topic_witness :
  findTopic (js "node-1000") (topics retriedState) = None
  /\ In secondAttempt (topics retriedState).
Proof.
  destruct (handleRetryTopic_replaces_topic (epochHost 200000) firstAttempt submittedState)
    as [p [Htopics [_ [_ [_ [_ [_ [_ [_ [_ [_ [_ Hgone]]]]]]]]]]]].
  split.
  - apply (Hgone (epochHost 1000)); [reflexivity | discriminate].
  - left. reflexivity.
Defined.

(** X20. After a delete the list holds no topic with the deleted id and
    still holds, in order, every topic with another id; the generating id is
    left as it was.  When the topic the handler saw as active is the deleted
    one, the first remaining topic becomes active, or none if the list is
    empty, so the active topic is then not the deleted one; otherwise the
    active topic is left alone.  Deleting again changes nothing more in the
    list. *)
Theorem handleDeleteTopic_removes_topic :
  forall (closureActive : option Topic) (topicId : jsstring) (st : AppState),
  let st' := handleDeleteTopic closureActive topicId st in
  topics st' = filter (fun t => negb (JsString.eqb (id t) topicId)) (topics st)
  /\ findTopic topicId (topics st') = None
  /\ (forall t, In t (topics st) -> id t <> topicId -> In t (topics st'))
  /\ generatingTopicId st' = generatingTopicId st
  /\ (forall a, closureActive = Some a -> id a = topicId ->
        activeTopic st' = hd_error (topics st')
        /\ forall a', activeTopic st' = Some a' -> id a' <> topicId)
  /\ (closureActive = None \/ (exists a, closureActive = Some a /\ id a <> topicId) ->
      activeTopic st' = activeTopic st)
  /\ topics (handleDeleteTopic closureActive topicId st') = topics st'.
Proof.
  intros closureActive topicId st st'.
  assert (Htopics : topics st'
                    = filter (fun t => negb (JsString.eqb (id t) topicId)) (topics st)).
  { unfold st', handleDeleteTopic. reflexivity. }
  split; [exact Htopics|].
  split; [rewrite Htopics; apply findTopic_filter_out|].
  split; [intros t Hin Hne; rewrite Htopics; now apply filter_out_keeps|].
  split.
  { unfold st', handleDeleteTopic.
    destruct closureActive as [a|]; [destruct (JsString.eqb (id a) topicId)|];
      reflexivity. }
  split.
  { intros a -> Hid. assert (Hact : activeTopic st' = hd_error (topics st')).
    { unfold st', handleDeleteTopic. apply eqb_eq in Hid. rewrite Hid. reflexivity. }
    split; [exact Hact|].
    intros a' Ha'. rewrite Hact, Htopics in Ha'.
    destruct (filter _ (topics st)) as [|x l] eqn:Hf; [discriminate|].
    injection Ha' as ->.
    assert (Hin : In a' (filter (fun t => negb (JsString.eqb (id t) topicId)) (topics st)))
      by (rewrite Hf; now left).
    apply filter_In in Hin. destruct Hin as [_ Hneg].
    apply negb_true_iff, eqb_neq in Hneg. exact Hneg. }
  split.
  { intros [-> | [a [-> Hne]]]; unfold st', handleDeleteTopic; [reflexivity|].
    apply eqb_neq in Hne. now rewrite Hne. }
  unfold handleDeleteTopic at 1. cbn [topics setTopics]. rewrite Htopics.
  clear Htopics. induction (topics st) as [|t l IH]; [reflexivity|].
  cbn [filter]. destruct (JsString.eqb (id t) topicId) eqn:E; cbn [negb]; [exact IH|].
  cbn [filter]. rewrite E. cbn [negb]. now rewrite IH.
Qed.

Lemma handleDeleteTopic_removes_topic_witness :
  activeTopic (handleDeleteTopic (Some firstAttempt) (js "node-1000") submittedState)
  = None.
Proof.
  destruct (handleDeleteTopic_removes_topic (Some firstAttempt) (js "node-1000")
              submittedState) as [_ [_ [_ [_ [Hactive _]]]]].
  exact (proj1 (Hactive firstAttempt eq_refl eq_refl)).
Defined.

(** ** Polling loops *)



Lemma earlierTicksLeft_nonneg : forall e : Z, (0 <= earlierTicksLeft e)%Z.
Proof.
  intro e. unfold earlierTicksLeft.
  destruct (Z.gtb_spec e 180000); [lia|]. Z.div_mod_to_equations; lia.
Qed.

Lemma earlierTicksLeft_after_start :
  forall late : Z, (0 <= late)%Z -> (earlierTicksLeft (5000 + late) <= 36)%Z.
Proof.
  intros late Hlate. unfold earlierTicksLeft.
  destruct (Z.gtb_spec (5000 + late) 180000); [lia|]. Z.div_mod_to_equations; lia.
Qed.

Lemma refreshAndPublish_cases :
  forall (nodeId : jsstring) (c : TickCalls) (st : AppState),
  match refreshAndPublish nodeId c st with
  | Published st' =>
      exists t refreshed,
        refreshCall c = Some (t, Resolved refreshed)
        /\ st' = publishRefreshed nodeId refreshed st
  | NextTick _ => False
  | Stuck => ~ resolves c
  end.
Proof.
  intros nodeId c st. unfold refreshAndPublish.
  destruct (refreshCall c) as [[t [l | e]]|] eqn:Hr.
  - now exists t, l.
  - intros [_ [t' [l Hl]]]. congruence.
  - intros [_ [t' [l Hl]]]. congruence.
Qed.


Lemma EarlierShell_pollTick_cases :
  forall (nodeId : jsstring) (e : Z) (c : TickCalls) (st : AppState),
  causal c ->
  match EarlierShell.pollTick nodeId e c st with
  | Published st' =>
      exists t refreshed,
        refreshCall c = Some (t, Resolved refreshed)
        /\ st' = publishRefreshed nodeId refreshed st
  | NextTick e' => (earlierTicksLeft e' <= earlierTicksLeft e - 1)%Z
  | Stuck => ~ resolves c
  end.
Proof.
  intros nodeId e c st [Hlate Htime].
  unfold EarlierShell.pollTick, EarlierShell.MAX_POLL_MS.
  pose proof (refreshAndPublish_cases nodeId c st) as Hpub.
  destruct (Z.gtb_spec e (3 * 60 * 1000)) as [Hgt | Hle].
  - destruct (refreshAndPublish nodeId c st); [exact Hpub | contradiction | exact Hpub].
  - destruct (statusCall c) as [[t [[|] | err]]|] eqn:Hs.
    + destruct (refreshAndPublish nodeId c st); [exact Hpub | contradiction | exact Hpub].
    + specialize (Htime t _ eq_refl). unfold earlierTicksLeft.
      destruct (Z.gtb_spec e 180000); [lia|].
      destruct (Z.gtb_spec (e + t + 5000 + timerLate c) 180000);
        Z.div_mod_to_equations; lia.
    + intros [[t' [s Hs']] _]. congruence.
    + intros [[t' [s Hs']] _]. congruence.
Qed.

(** A loop whose ticks publish, are stuck, or leave fewer ticks to run,
    does not outlast its measure: once more ticks are due than the measure
    allows, it has published the list a refresh call resolved to, or it is
    stuck at a tick one of whose calls does not resolve. *)
Lemma runTicks_ends :
  forall (nodeId : jsstring) (tick : Z -> TickCalls -> AppState -> TickEnd)
         (measure : Z -> Z),
  (forall e, (0 <= measure e)%Z) ->
  (forall e c st,
     causal c ->
     match tick e c st with
     | Published st' =>
         exists t refreshed,
           refreshCall c = Some (t, Resolved refreshed)
           /\ st' = publishRefreshed nodeId refreshed st
     | NextTick e' => (measure e' <= measure e - 1)%Z
     | Stuck => ~ resolves c
     end) ->
  forall (calls : list TickCalls) (e : Z) (st : AppState),
  Forall causal calls ->
  (measure e < Z.of_nat (List.length calls))%Z ->
  (exists c t refreshed,
     In c calls
     /\ refreshCall c = Some (t, Resolved refreshed)
     /\ runTicks tick e calls st = Ended (publishRefreshed nodeId refreshed st))
  \/ (runTicks tick e calls st = StuckForEver
      /\ exists c, In c calls /\ ~ resolves c).
Proof.
  intros nodeId tick measure Hnonneg Htick.
  induction calls as [|c calls IH]; intros e st Hcausal Hlen.
  - simpl in Hlen. specialize (Hnonneg e). lia.
  - cbn [runTicks]. inversion Hcausal as [|c' calls' Hc Hrest]; subst.
    specialize (Htick e c st Hc).
    destruct (tick e c st) as [st' | e' |].
    + destruct Htick as [t [refreshed [Hr ->]]]. left.
      exists c, t, refreshed. repeat split; [now left | assumption].
    + destruct (IH e' st Hrest) as [[c' [t [refreshed [Hin [Hr Hrun]]]]] | [Hrun [c' [Hin Hno]]]].
      * cbn [List.length] in Hlen. lia.
      * left. exists c', t, refreshed. repeat split; [now right | assumption | assumption].
      * right. split; [assumption|]. exists c'. split; [now right | assumption].
    + right. split; [reflexivity|]. exists c. split; [now left | assumption].
Qed.






(** A call of the earlier [getTopics] resolves once its request is
    answered and the body read. *)
Lemma ApiTs_getTopics_resolves :
  forall (net : Network (FeedData BackendTopicItem)),
  answers net -> bodiesRead net ->
  exists t l, settles (ApiTs.getTopics net) = Some (t, Resolved l).
Proof.
  intros net Hans Hread. unfold ApiTs.getTopics, fetch.
  specialize (Hans getTopics_request).
  destruct (net getTopics_request) as [[t [res | e]]|] eqn:Hnet.
  - specialize (Hread _ _ _ Hnet). destruct res as [[[t' [data | e]]|]].
    + destruct data; cbn; eexists; eexists; reflexivity.
    + cbn; eexists; eexists; reflexivity.
    + now contradiction Hread.
  - cbn; eexists; eexists; reflexivity.
  - now contradiction Hans.
Qed.

Lemma ApiTs_pollTopicStatus_resolves :
  forall (net : Network (FeedData BackendTopicItem)) (nodeId : jsstring),
  answers net -> bodiesRead net ->
  exists t s, settles (ApiTs.pollTopicStatus net nodeId) = Some (t, Resolved s).
Proof.
  intros net nodeId Hans Hread.
  destruct (ApiTs_getTopics_resolves Hans Hread) as [t [l Hl]].
  unfold ApiTs.pollTopicStatus. destruct (ApiTs.getTopics net) as [c p].
  cbn [settles snd] in Hl. subst p. cbn. eexists; eexists; reflexivity.
Qed.

Lemma ApiTs_pollTopicStatus_takes_time :
  forall (net : Network (FeedData BackendTopicItem)) (nodeId : jsstring)
         (t : Z) (r : Settled TopicStatus),
  wellTimed net ->
  settles (ApiTs.pollTopicStatus net nodeId) = Some (t, r) ->
  (0 <= t)%Z.
Proof.
  intros net nodeId t r Htimed.
  unfold ApiTs.pollTopicStatus, ApiTs.getTopics, fetch.
  destruct (net getTopics_request) as [[t0 [res | e]]|] eqn:Hnet.
  - destruct (Htimed _ _ _ Hnet) as [Ht0 Hbody]. specialize (Hbody res eq_refl).
    destruct res as [[[t' [data | e]]|]]; cbn in Hbody.
    + specialize (Hbody t' _ eq_refl).
      destruct data; cbn; intro H; injection H as <- _; lia.
    + specialize (Hbody t' _ eq_refl). cbn; intro H; injection H as <- _; lia.
    + cbn. discriminate.
  - destruct (Htimed _ _ _ Hnet) as [Ht0 _].
    cbn; intro H; injection H as <- _; lia.
  - cbn. discriminate.
Qed.

(** On a network that never answers, the earlier status call stays
    pending, and the current one resolves at its timer. *)
Lemma pollTopicStatus_on_silence :
  forall (h : Host) (nodeId : jsstring),
  settles (ApiTs.pollTopicStatus silent nodeId) = None
  /\ settles (pollTopicStatus h silent nodeId) = Some (15000%Z, Resolved generating).
Proof. intros h nodeId. split; reflexivity. Qed.




(** X22. A polling loop of the earlier shells, with the awaits of its
    ticks taken into account.  Once 37 ticks are due the loop has either
    published the list some tick's refresh call resolved to, or it is
    stuck for ever at a tick one of whose calls does not resolve; 36
    ticks can be too few.  Through the gateway kept under [src/services],
    whose reads have no timer, the loop publishes whenever every request
    is answered or fails and every body is read, and a status request
    that is never answered leaves it stuck at its first tick, where the
    current gateway goes on.  A tick of the earlier shells ends like one
    of the current shell up to three minutes and after five. *)
Theorem EarlierShell_pollLoop_publishes_or_is_stuck_within_37_ticks :
  forall (nodeId : jsstring) (late : Z) (st : AppState),
  (0 <= late)%Z ->
  (forall calls : list TickCalls,
     Forall causal calls ->
     (37 <= List.length calls)%nat ->
     ((exists c t refreshed,
         In c calls
         /\ refreshCall c = Some (t, Resolved refreshed)
         /\ EarlierShell.pollLoop nodeId late calls st
            = Ended (publishRefreshed nodeId refreshed st))
      \/ (EarlierShell.pollLoop nodeId late calls st = StuckForEver
          /\ exists c, In c calls /\ ~ resolves c))
     /\ (Forall resolves calls ->
         exists refreshed,
           EarlierShell.pollLoop nodeId late calls st
           = Ended (publishRefreshed nodeId refreshed st)))
  /\ (forall envs : list TickEnv,
        Forall bodiesReadAt envs ->
        Forall (fun env => answers (statusNet env) /\ answers (refreshNet env)) envs ->
        (37 <= List.length envs)%nat ->
        exists refreshed,
          EarlierShell.pollLoop nodeId late (map (EarlierShell.gatewayCalls nodeId) envs) st
          = Ended (publishRefreshed nodeId refreshed st))
  /\ (forall (env : TickEnv) (rest : list TickEnv),
        (late <= 175000)%Z ->
        statusNet env = silent ->
        EarlierShell.pollLoop nodeId late
          (map (EarlierShell.gatewayCalls nodeId) (env :: rest)) st
        = StuckForEver
        /\ EarlierShell.pollTick nodeId (5000 + late) (gatewayCalls nodeId env) st
           = NextTick (5000 + late + 15000 + 5000 + lateness env)%Z)
  /\ EarlierShell.pollLoop nodeId 0 (repeat (stillGenerating 0 []) 36) st = StillRunning
  /\ (forall (e : Z) (c : TickCalls),
        (e <= 180000)%Z \/ (300000 < e)%Z ->
        sameEnd (EarlierShell.pollTick nodeId e c st) (pollTick nodeId e c st)).
Proof.
  intros nodeId late st Hlate.
  assert (Hends : forall calls : list TickCalls,
            Forall causal calls -> (37 <= List.length calls)%nat ->
            (exists c t refreshed,
               In c calls
               /\ refreshCall c = Some (t, Resolved refreshed)
               /\ EarlierShell.pollLoop nodeId late calls st
                  = Ended (publishRefreshed nodeId refreshed st))
            \/ (EarlierShell.pollLoop nodeId late calls st = StuckForEver
                /\ exists c, In c calls /\ ~ resolves c)).
  { intros calls Hcausal Hlen. unfold EarlierShell.pollLoop.
    apply (@runTicks_ends nodeId (EarlierShell.pollTick nodeId) earlierTicksLeft
             earlierTicksLeft_nonneg (EarlierShell_pollTick_cases nodeId)
             calls (5000 + late)%Z st Hcausal).
    pose proof (earlierTicksLeft_after_start Hlate). lia. }
  assert (Hall : forall calls : list TickCalls,
            Forall causal calls -> (37 <= List.length calls)%nat ->
            Forall resolves calls ->
            exists refreshed,
              EarlierShell.pollLoop nodeId late calls st
              = Ended (publishRefreshed nodeId refreshed st)).
  { intros calls Hcausal Hlen Hres.
    destruct (Hends calls Hcausal Hlen)
      as [[c [t [refreshed [_ [_ Hrun]]]]] | [_ [c [Hin Hno]]]].
    - now exists refreshed.
    - rewrite Forall_forall in Hres. now contradiction (Hno (Hres c Hin)). }
  split; [|split; [|split; [|split]]].
  - intros calls Hcausal Hlen. split; [now apply Hends | now apply Hall].
  - intros envs Henvs Hans Hlen. apply Hall.
    + apply Forall_map. eapply Forall_impl; [|exact Henvs].
      intros env [Hl [Ht _]]. split; [exact Hl|].
      intros t r Hs. exact (ApiTs_pollTopicStatus_takes_time _ Ht Hs).
    + now rewrite length_map.
    + apply Forall_map. rewrite Forall_forall in *. intros env Hin.
      destruct (Henvs env Hin) as [_ [_ [Hs Hr]]]. destruct (Hans env Hin) as [As Ar].
      split.
      * exact (ApiTs_pollTopicStatus_resolves nodeId As Hs).
      * exact (ApiTs_getTopics_resolves Ar Hr).
  - intros env rest Hl Hnet. unfold EarlierShell.pollLoop. cbn [map runTicks].
    unfold EarlierShell.pollTick, EarlierShell.MAX_POLL_MS.
    destruct (Z.gtb_spec (5000 + late) (3 * 60 * 1000)) as [Hgt | _]; [lia|].
    unfold EarlierShell.gatewayCalls at 1, gatewayCalls. cbn [statusCall timerLate].
    rewrite Hnet.
    rewrite (proj1 (pollTopicStatus_on_silence (statusClock env) nodeId)).
    rewrite (proj2 (pollTopicStatus_on_silence (statusClock env) nodeId)).
    split; reflexivity.
  - vm_compute. reflexivity.
  - intros e c He. unfold EarlierShell.pollTick, pollTick, EarlierShell.MAX_POLL_MS,
      MAX_POLL_MS, sameEnd.
    destruct (Z.gtb_spec e (3 * 60 * 1000)), (Z.gtb_spec e (5 * 60 * 1000)); try lia.
    + now destruct (refreshAndPublish nodeId c st).
    + destruct (statusCall c) as [[t [[|] | err]]|]; trivial.
      now destruct (refreshAndPublish nodeId c st).
Qed.

Lemma answering_bodiesReadAt :
  forall (h : Host) (t t' : Z) (data : FeedData BackendTopicItem),
  (0 <= t)%Z -> (0 <= t')%Z ->
  bodiesReadAt (meeting h (answering t t' data))
  /\ answers (answering t t' data).
Proof.
  intros h t t' data Ht Ht'. unfold bodiesReadAt, meeting, answering. cbn.
  repeat split; try discriminate.
  - injection H as <- _. exact Ht.
  - intros res -> t1 r1 Hj. injection H as _ <-. cbn in Hj. injection Hj as <- _. exact Ht'.
  - intros req t0 res H. injection H as _ <-. discriminate.
  - intros req t0 res H. injection H as _ <-. discriminate.
Qed.

Lemma EarlierShell_pollLoop_publishes_or_is_stuck_within_37_ticks_witness :
  (exists refreshed,
     EarlierShell.pollLoop (js "node-1000") 0
       (map (EarlierShell.gatewayCalls (js "node-1000"))
            (repeat (meeting (epochHost 1000) (answering 100 10 completedFeed)) 37))
       submittedState
     = Ended (publishRefreshed (js "node-1000") refreshed submittedState))
  /\ EarlierShell.pollLoop (js "node-1000") 0
       (map (EarlierShell.gatewayCalls (js "node-1000"))
            (repeat (meeting (epochHost 1000) silent) 37))
       submittedState
     = StuckForEver.
Proof.
  pose proof (@EarlierShell_pollLoop_publishes_or_is_stuck_within_37_ticks
                (js "node-1000") 0%Z submittedState ltac:(discriminate))
    as [_ [Hread [Hsilent _]]].
  split.
  - apply Hread.
    + apply Forall_forall. intros env Hin. apply repeat_spec in Hin. subst env.
      apply answering_bodiesReadAt; discriminate.
    + apply Forall_forall. intros env Hin. apply repeat_spec in Hin. subst env.
      split; apply (answering_bodiesReadAt (epochHost 1000)); discriminate.
    + rewrite repeat_length. apply le_n.
  - apply (Hsilent (meeting (epochHost 1000) silent)
             (repeat (meeting (epochHost 1000) silent) 36)); [discriminate | reflexivity].
Defined.


(** ** Trimmed strings and the new-topic form *)

Lemma trimStart_decompose : forall s : jsstring,
  exists pre, allWhiteSpace pre /\ s = pre ++ JsString.trimStart s
              /\ (JsString.trimStart s = []
                  \/ exists c r, JsString.trimStart s = c :: r
                                 /\ JsString.isWhiteSpace c = false).
Proof.
  induction s as [|c s [pre [Hpre [Hs Hhead]]]].
  - exists []. repeat split; [constructor | now left].
  - cbn [JsString.trimStart]. destruct (JsString.isWhiteSpace c) eqn:Hc.
    + exists (c :: pre). split; [now constructor|].
      split; [cbn; now rewrite <- Hs | exact Hhead].
    + exists []. split; [constructor|]. split; [reflexivity|].
      right. now exists c, s.
Qed.

Lemma trimEnd_decompose : forall s : jsstring,
  exists post, allWhiteSpace post /\ s = JsString.trimEnd s ++ post
               /\ (JsString.trimEnd s = []
                   \/ exists r c, JsString.trimEnd s = r ++ [c]
                                  /\ JsString.isWhiteSpace c = false).
Proof.
  intro s. unfold JsString.trimEnd.
  destruct (trimStart_decompose (rev s)) as [pre [Hpre [Hs Hhead]]].
  exists (rev pre). split; [now apply allWhiteSpace_rev|]. split.
  - rewrite <- rev_app_distr, <- Hs. now rewrite rev_involutive.
  - destruct Hhead as [-> | [c [r [-> Hc]]]]; [now left|].
    right. exists (rev r), c. now split.
Qed.

Lemma trim_shape : forall s : jsstring,
  JsString.trim s = []
  \/ (exists c r, JsString.trim s = c :: r /\ JsString.isWhiteSpace c = false)
     /\ (exists r c, JsString.trim s = r ++ [c] /\ JsString.isWhiteSpace c = false).
Proof.
  intro s. unfold JsString.trim.
  destruct (trimStart_decompose s) as [_ [_ [_ [-> | [c [r [-> Hc]]]]]]]; [now left|].
  destruct (trimEnd_decompose (c :: r)) as [post [Hpost [Hs Hlast]]].
  destruct Hlast as [Hnil | Hlast].
  - rewrite Hnil in Hs. cbn in Hs. rewrite <- Hs in Hpost.
    inversion Hpost as [|? ? Hws _]. congruence.
  - right. split; [|exact Hlast].
    destruct (JsString.trimEnd (c :: r)) as [|c' r'] eqn:Ht.
    + destruct Hlast as [r0 [c0 [Hl _]]]. now destruct r0.
    + cbn in Hs. injection Hs as <- _. now exists c, r'.
Qed.

Lemma trim_nil_iff : forall s : jsstring, JsString.trim s = [] <-> allWhiteSpace s.
Proof.
  intro s. split.
  - unfold JsString.trim.
    destruct (trimStart_decompose s) as [pre [Hpre [Hs _]]].
    destruct (trimEnd_decompose (JsString.trimStart s)) as [post [Hpost [Ht _]]].
    intro Hnil. rewrite Hnil in Ht. cbn in Ht. rewrite Hs, Ht.
    now apply Forall_app.
  - intro H. unfold JsString.trim. now rewrite (trimStart_whiteSpace H).
Qed.

Lemma trim_idempotent : forall s : jsstring, JsString.trim (JsString.trim s) = JsString.trim s.
Proof.
  intro s.
  destruct (trimStart_decompose s) as [pre [Hpre [Hs _]]].
  destruct (trimEnd_decompose (JsString.trimStart s)) as [post [Hpost [Ht _]]].
  assert (Hdec : s = pre ++ JsString.trim s ++ post).
  { unfold JsString.trim. now rewrite <- Ht. }
  pose proof (trim_padding (JsString.trim s) Hpre Hpost) as Hp.
  rewrite <- Hdec in Hp. now symmetry.
Qed.

(** X23. The form submits nothing for a title that is empty or white
    space only, and then stays as it is, open.  For any other title it
    submits the trimmed title with the chosen depth, clears itself back to
    the empty title and [beginner], and closes; the submitted title is not
    empty, neither begins nor ends with white space, and trimming it again
    gives the same string. *)
Theorem AddTopicModal_submits_trimmed_title :
  forall f : AddTopicModal.Form,
  (allWhiteSpace (AddTopicModal.f_title f) ->
   AddTopicModal.handleGenerate f
   = {| AddTopicModal.submitted := None;
        AddTopicModal.form := f;
        AddTopicModal.closed := false |})
  /\ (~ allWhiteSpace (AddTopicModal.f_title f) ->
      exists name,
        AddTopicModal.handleGenerate f
        = {| AddTopicModal.submitted := Some (name, AddTopicModal.f_depth f);
             AddTopicModal.form := {| AddTopicModal.f_title := JsString.empty;
                                      AddTopicModal.f_depth := beginner |};
             AddTopicModal.closed := true |}
        /\ name = JsString.trim (AddTopicModal.f_title f)
        /\ (exists c r, name = c :: r /\ JsString.isWhiteSpace c = false)
        /\ (exists r c, name = r ++ [c] /\ JsString.isWhiteSpace c = false)
        /\ JsString.trim name = name).
Proof.
  intro f. unfold AddTopicModal.handleGenerate. split.
  - intro Hws. apply trim_nil_iff in Hws. now rewrite Hws.
  - intro Hnot. exists (JsString.trim (AddTopicModal.f_title f)).
    destruct (trim_shape (AddTopicModal.f_title f)) as [Hnil | [Hhead Hlast]].
    + apply trim_nil_iff in Hnil. contradiction.
    + destruct Hhead as [c [r [Hcr Hc]]]. split; [now rewrite Hcr|].
      split; [reflexivity|]. split; [now exists c, r|].
      split; [exact Hlast | apply trim_idempotent].
Qed.

Lemma AddTopicModal_submits_trimmed_title_witness :
  AddTopicModal.submitted
    (AddTopicModal.handleGenerate
       {| AddTopicModal.f_title := [0x20; 0x9]%N; AddTopicModal.f_depth := advanced |})
  = None
  /\ exists name,
       AddTopicModal.submitted
         (AddTopicModal.handleGenerate
            {| AddTopicModal.f_title := js "  Creatine ";
               AddTopicModal.f_depth := advanced |})
       = Some (name, advanced)
       /\ name = js "Creatine".
Proof.
  split.
  - rewrite (proj1 (AddTopicModal_submits_trimmed_title
                      {| AddTopicModal.f_title := [0x20; 0x9]%N;
                         AddTopicModal.f_depth := advanced |}));
      [reflexivity | repeat constructor].
  - destruct (proj2 (AddTopicModal_submits_trimmed_title
                       {| AddTopicModal.f_title := js "  Creatine ";
                          AddTopicModal.f_depth := advanced |}))
      as [name [Hsub [Hname _]]].
    + intro Hws. inversion Hws as [|? ? _ Hrest]. inversion Hrest as [|? ? _ Hrest'].
      inversion Hrest' as [|? ? Hc _]. discriminate.
    + exists name. split; [now rewrite Hsub | exact Hname].
Defined.

(** ** The feed screen *)

(** X24. The card-loading effect of the feed screen does nothing without a
    topic or while the topic is generating.  Otherwise it shows the loading
    state, and, since [getCards] is never rejected, the run of its [then]
    callback depends only on whether [getCards] settles: when it does, the
    loading flag is cleared and the cards are the resolved list; when the
    request gets no answer within 15 seconds, that happens at 15 seconds
    with no cards, and the screen shows "no cards yet". *)
Theorem FeedScreen_effect_clears_loading :
  forall (net : Network (FeedData BackendALU)) (topic : option Topic)
         (generatingNow : bool) (s : FeedScreen.State),
  (topic = None \/ generatingNow = true ->
   FeedScreen.effect net topic generatingNow s = (s, None))
  /\ (forall t, topic = Some t -> generatingNow = false ->
        FeedScreen.body (fst (FeedScreen.effect net topic generatingNow s))
        = FeedScreen.LoadingCards
        /\ (settles (getCards net (id t)) = None ->
            snd (FeedScreen.effect net topic generatingNow s) = None)
        /\ (forall time r, settles (getCards net (id t)) = Some (time, r) ->
              exists c, r = Resolved c
                /\ snd (FeedScreen.effect net topic generatingNow s)
                   = Some (time, {| FeedScreen.f_cards := c;
                                    FeedScreen.currentIndex := 0;
                                    FeedScreen.loading := false |}))
        /\ (unanswered net (getCards_request (id t)) 15000 ->
            exists s', snd (FeedScreen.effect net topic generatingNow s)
                       = Some (15000%Z, s')
                       /\ FeedScreen.body s' = FeedScreen.NoCardsYet)).
Proof.
  intros net topic generatingNow s. split.
  - intros [-> | ->]; unfold FeedScreen.effect, FeedScreen.effectStart;
      [reflexivity | now destruct topic].
  - intros t -> ->. unfold FeedScreen.effect, FeedScreen.effectStart.
    cbn [fst snd]. split; [reflexivity|]. split; [now intros ->|]. split.
    + intros time r Hr. rewrite Hr. destruct r as [c | e].
      * exists c. now split.
      * now elim (getCards_neverRejects net (id t) Hr).
    + intro Hun.
      rewrite (getCards_rejected net (id t) (fetchWithTimeout_unanswered Hun)).
      cbn. eexists. split; reflexivity.
Qed.

Lemma FeedScreen_effect_clears_loading_witness :
  exists s', snd (FeedScreen.effect silent (Some firstAttempt) false
                    {| FeedScreen.f_cards := []; FeedScreen.currentIndex := 3;
                       FeedScreen.loading := false |})
             = Some (15000%Z, s')
             /\ FeedScreen.body s' = FeedScreen.NoCardsYet.
Proof.
  destruct (FeedScreen_effect_clears_loading silent (Some firstAttempt) false
              {| FeedScreen.f_cards := []; FeedScreen.currentIndex := 3;
                 FeedScreen.loading := false |}) as [_ Hrun].
  destruct (Hrun firstAttempt eq_refl eq_refl) as [_ [_ [_ Htimeout]]].
  apply Htimeout. left. reflexivity.
Defined.

(** ** The authentication stub *)

Lemma AuthService_run_snoc : forall (calls : list AuthService.Call) (c : AuthService.Call)
    (st : AuthService.AuthState),
  AuthService.run (calls ++ [c]) st = AuthService.call c (AuthService.run calls st).
Proof.
  intros calls c st. unfold AuthService.run. now rewrite fold_left_app.
Qed.

(** X25. Through any sequence of logins and logouts the stub is
    authenticated exactly when it has a user; that user is the mock user
    with the e-mail of the last login (any password is accepted), or the
    mock user unchanged if nobody logged in or out yet; after a logout
    there is no user. *)
Theorem AuthService_state_invariant :
  forall calls : list AuthService.Call,
  let st := AuthService.run calls AuthService.initialState in
  (AuthService.isAuthenticated st = true <-> AuthService.user st <> None)
  /\ (forall u, AuthService.getUser st = Some u ->
        AuthService.u_id u = js "user-1"
        /\ AuthService.u_name u = js "Alex Learner"
        /\ AuthService.avatarUrl u = Some (js "https://i.pravatar.cc/150?img=12"))
  /\ (forall email password,
        exists u, AuthService.getUser
                    (AuthService.run (calls ++ [AuthService.Login email password])
                       AuthService.initialState) = Some u
                  /\ AuthService.u_email u = email)
  /\ AuthService.getUser
       (AuthService.run (calls ++ [AuthService.Logout]) AuthService.initialState)
     = None.
Proof.
  intros calls st. split; [|split; [|split]].
  - unfold st. induction calls as [|c calls IH] using rev_ind.
    + cbn. split; [discriminate | reflexivity].
    + rewrite AuthService_run_snoc. destruct c; cbn.
      * split; [discriminate | reflexivity].
      * split; [discriminate | intro H; now elim H].
  - unfold st. induction calls as [|c calls IH] using rev_ind.
    + cbn. intros u Hu. injection Hu as <-. repeat split.
    + rewrite AuthService_run_snoc. destruct c; cbn.
      * intros u Hu. injection Hu as <-. repeat split.
      * discriminate.
  - intros email password. rewrite AuthService_run_snoc. cbn. eexists.
    split; reflexivity.
  - now rewrite AuthService_run_snoc.
Qed.
